(** * BlenVM: elementary math operations, dual-value node wrappers and the
      texture expression cache

    Shallow embedding of
    - [source/blender/blenvm/bvm/bvm_eval_math.h]        (module [EvalMath]),
    - [source/blender/blenvm/llvm/llvm_compiler_dual.cc] (modules [LLVMIR],
      [DualCompiler]),
    - the texture cache [BVM_texture_cache_*] of
      [source/blender/blenvm/intern/bvm_api.cc], which the source tree
      carries at the end of [llvm_compiler_dual.cc] (module [TexCache]).

    C [float] is IEEE-754 binary32 with round-to-nearest-even; it is taken
    from the parameterised specification of the standard library
    ([SpecFloat], precision 24, [emax] 128), so every operation below
    computes. *)

From Stdlib Require Import ZArith List Bool Lia.
From Stdlib Require Import Floats.SpecFloat.
From stdpp Require Import base option list gmap strings.

Import ListNotations.

(* ===================================================================== *)
(** * binary32 arithmetic *)
(* ===================================================================== *)

Module F32.

Definition prec : Z := 24.
Definition emax : Z := 128.

Definition float : Type := spec_float.

Definition add : float -> float -> float := SFadd prec emax.
Definition mul : float -> float -> float := SFmul prec emax.
Definition div : float -> float -> float := SFdiv prec emax.
Definition sqrtf : float -> float := SFsqrt prec emax.

(** C comparison operators; every comparison with a NaN is false except
    [!=], which is true. *)
Definition eqb (a b : float) : bool := SFeqb a b.
Definition neb (a b : float) : bool := negb (SFeqb a b).
Definition gtb (a b : float) : bool := SFltb b a.

(** Conversion of an integer, and of the decimal literal [n/d]; both are
    correctly rounded. *)
Definition of_Z (z : Z) : float := binary_normalize prec emax z 0 false.
Definition lit (n d : Z) : float := div (of_Z n) (of_Z d).

Definition zero : float := S754_zero false.
Definition one : float := of_Z 1.

(** A float is a well-formed binary32 datum. *)
Definition valid (x : float) : bool := valid_binary prec emax x.

End F32.

(* ===================================================================== *)
(** * [bvm_eval_math.h] *)
(* ===================================================================== *)

Module EvalMath.

Import F32.

(** [typedef int StackIndex] *)
Definition StackIndex : Type := Z.

(** [struct float3 { float x, y, z; }] *)
Record float3 : Type := mk_float3 { f3x : float; f3y : float; f3z : float }.

(** ** Instrumented evaluation

    The operations below are pure except for two numerically hazardous
    primitives, whose every execution is logged: the machine division
    [a / b] and the libm call [fmodf(a, b)].  A computation is a value
    together with the log of the hazardous primitives it ran. *)
Inductive event : Type :=
| Ev_fdiv (a b : float)
| Ev_fmodf (a b : float).

Definition M (A : Type) : Type := (list event * A)%type.

Definition ret {A} (x : A) : M A := ([], x).
Definition bind {A B} (m : M A) (k : A -> M B) : M B :=
  let '(t1, a) := m in
  let '(t2, b) := k a in
  (t1 ++ t2, b).

Notation "'let*' x ':=' m 'in' k" := (bind m (fun x => k))
  (at level 10, x name, m at level 100, k at level 200).

Definition log {A} (m : M A) : list event := fst m.
Definition value {A} (m : M A) : A := snd m.

(** [a / b] on floats. *)
Definition fdiv (a b : float) : M float := ([Ev_fdiv a b], div a b).

(** Modelled from the spec: [div_safe] of [bvm_util_math.h], which is not
    among the sources.  Section 7 defines division by zero "to return a
    safe sentinel (zero ...) rather than signaling an error", and the
    scenario of section 8 names 0.0 the "safe-divide sentinel"; for a
    non-zero divisor it is the ordinary quotient. *)
Definition div_safe (a b : float) : M float :=
  if neb b zero then fdiv a b else ret zero.

Section Ops.

(** The evaluation stack ([float *stack]) and its accessors live in
    [bvm_eval_common.h], which is not among the sources: they are
    parameters of the operations. *)
Variable Stack : Type.
Variable stack_load_float : Stack -> StackIndex -> float.
Variable stack_load_float3 : Stack -> StackIndex -> float3.
Variable stack_store_float : Stack -> StackIndex -> float -> Stack.
Variable stack_store_float3 : Stack -> StackIndex -> float3 -> Stack.

(** libm's [fmodf]. *)
Variable fmodf : float -> float -> float.

Definition call_fmodf (a b : float) : M float :=
  ([Ev_fmodf a b], fmodf a b).

Definition eval_op_add_float (stack : Stack)
    (offset_a offset_b offset_r : StackIndex) : M Stack :=
  let a := stack_load_float stack offset_a in
  let b := stack_load_float stack offset_b in
  ret (stack_store_float stack offset_r (add a b)).

Definition eval_op_div_float (stack : Stack)
    (offset_a offset_b offset_r : StackIndex) : M Stack :=
  let a := stack_load_float stack offset_a in
  let b := stack_load_float stack offset_b in
  let* r := div_safe a b in
  ret (stack_store_float stack offset_r r).

Definition eval_op_modulo (stack : Stack)
    (offset_a offset_b offset_r : StackIndex) : M Stack :=
  let a := stack_load_float stack offset_a in
  let b := stack_load_float stack offset_b in
  let* r := (if neb b zero then call_fmodf a b else ret zero) in
  ret (stack_store_float stack offset_r r).

Definition eval_op_normalize_float3 (stack : Stack)
    (offset offset_vec offset_val : StackIndex) : M Stack :=
  let v := stack_load_float3 stack offset in
  let l := sqrtf (add (add (mul (f3x v) (f3x v)) (mul (f3y v) (f3y v)))
                      (mul (f3z v) (f3z v))) in
  let* f := (if gtb l zero then fdiv one l else ret zero) in
  let vec := mk_float3 (mul (f3x v) f) (mul (f3y v) f) (mul (f3z v) f) in
  let stack := stack_store_float3 stack offset_vec vec in
  ret (stack_store_float stack offset_val l).

Definition eval_op_length_float3 (stack : Stack)
    (offset offset_len : StackIndex) : M Stack :=
  let v := stack_load_float3 stack offset in
  let l := sqrtf (add (add (mul (f3x v) (f3x v)) (mul (f3y v) (f3y v)))
                      (mul (f3z v) (f3z v))) in
  ret (stack_store_float stack offset_len l).

End Ops.

(** ** A concrete stack

    An array of floats addressed by index; a [float3] occupies three
    consecutive cells.  Used to run the operations on examples. *)
Definition ArrayStack : Type := list float.

Definition array_load_float (s : ArrayStack) (i : StackIndex) : float :=
  default zero (s !! Z.to_nat i).
Definition array_store_float (s : ArrayStack) (i : StackIndex) (f : float)
    : ArrayStack :=
  <[Z.to_nat i := f]> s.
Definition array_load_float3 (s : ArrayStack) (i : StackIndex) : float3 :=
  mk_float3 (array_load_float s i) (array_load_float s (i + 1)%Z)
            (array_load_float s (i + 2)%Z).
Definition array_store_float3 (s : ArrayStack) (i : StackIndex) (v : float3)
    : ArrayStack :=
  array_store_float
    (array_store_float (array_store_float s i (f3x v)) (i + 1)%Z (f3y v))
    (i + 2)%Z (f3z v).

End EvalMath.

(* ===================================================================== *)
(** * Type descriptions and node types ([node_graph.h], [typedesc.h]) *)
(* ===================================================================== *)

Module Nodes.

Inductive BVMType : Type :=
| BVM_FLOAT | BVM_FLOAT3 | BVM_FLOAT4 | BVM_INT | BVM_MATRIX44.

(** [TypeSpec]: the base kind and the two shape queries the compiler
    asks, [is_aggregate()] and [is_structure()]. *)
Record TypeSpec : Type := mk_TypeSpec {
  base_type : BVMType;
  is_aggregate : bool;
  is_structure : bool
}.

Inductive BVMInputValueType : Type :=
| INPUT_CONSTANT | INPUT_EXPRESSION.

Record NodeInput : Type := mk_NodeInput {
  input_name : string;
  input_typespec : TypeSpec;
  value_type : BVMInputValueType
}.

Record NodeOutput : Type := mk_NodeOutput {
  output_name : string;
  output_typespec : TypeSpec
}.

Record NodeType : Type := mk_NodeType {
  name : string;
  inputs : list NodeInput;
  outputs : list NodeOutput
}.

Definition num_inputs (nt : NodeType) : nat := length (inputs nt).
Definition num_outputs (nt : NodeType) : nat := length (outputs nt).
(** [find_input(int)] and [find_output(int)]; [None] is the null pointer
    returned for an index out of range. *)
Definition find_input (nt : NodeType) (i : nat) : option NodeInput :=
  inputs nt !! i.
Definition find_output (nt : NodeType) (i : nat) : option NodeOutput :=
  outputs nt !! i.

Definition is_constant (v : BVMInputValueType) : bool :=
  match v with INPUT_CONSTANT => true | INPUT_EXPRESSION => false end.

(** Scalar types used in the examples. *)
Definition TYPE_FLOAT : TypeSpec := mk_TypeSpec BVM_FLOAT false false.
Definition TYPE_FLOAT3 : TypeSpec := mk_TypeSpec BVM_FLOAT3 false false.
Definition TYPE_INT : TypeSpec := mk_TypeSpec BVM_INT false false.

(** An instance of [bvm_type_has_dual_value] for the examples: the
    floating-point kinds carry derivatives, integers and matrices do not,
    and a structure carries them per field only. *)
Definition float_kinds_have_dual (t : TypeSpec) : bool :=
  if is_structure t then false
  else match base_type t with
       | BVM_FLOAT | BVM_FLOAT3 | BVM_FLOAT4 => true
       | BVM_INT | BVM_MATRIX44 => false
       end.

End Nodes.

(* ===================================================================== *)
(** * The fragment of LLVM IR the node compiler emits *)
(* ===================================================================== *)

Module LLVMIR.

Import Nodes.

(** An [llvm::Value*]: a formal argument of the function being built (by
    position), a constant, or the result of an earlier load. *)
Inductive Value : Type :=
| Argument (n : nat)
| ConstantInt (bits : N) (v : Z)
| ConstantZero (t : TypeSpec)        (* [bvm_make_zero(context(), t)] *)
| LoadResult (r : nat).

Inductive Instruction : Type :=
| Call (callee : string) (args : list Value)
| Store (val ptr : Value)
| Load (r : nat) (ptr : Value)
| Switch (v : Value) (default : string) (cases : list (Z * string))
| Br (dest : string)
| RetVoid.

Record BasicBlock : Type := mk_BasicBlock {
  bb_name : string;
  bb_insts : list Instruction
}.

(** A function is its blocks in creation order; the first is the entry. *)
Record Function : Type := mk_Function {
  fn_name : string;
  fn_blocks : list BasicBlock
}.

(** An [llvm::Module] as far as the compiler queries it: the names of
    the functions declared in it. *)
Definition Module_ : Type := gset string.

Definition llvm_find_external_function (mod_ : Module_) (nm : string)
    : option string :=
  if bool_decide (nm ∈ mod_) then Some nm else None.

(** ** Execution *)

Section Exec.

(** Run-time data and the meaning of the zero constant and of external
    calls are parameters. *)
Variable data : Type.
Variable bvm_make_zero : TypeSpec -> data.

Inductive rtval : Type :=
| RPtr (a : nat)
| RInt (i : Z)
| RData (d : data).

Record machine : Type := mk_machine {
  m_args : list rtval;            (* actual arguments *)
  m_regs : gmap nat rtval;        (* results of loads *)
  m_mem : gmap nat rtval          (* memory, by address *)
}.

Variable call_external :
  string -> list rtval -> gmap nat rtval -> option (gmap nat rtval).

Definition eval_value (m : machine) (v : Value) : option rtval :=
  match v with
  | Argument n => m_args m !! n
  | ConstantInt _ z => Some (RInt z)
  | ConstantZero t => Some (RData (bvm_make_zero t))
  | LoadResult r => m_regs m !! r
  end.

Inductive control : Type :=
| Next
| Jump (l : string)
| Return.

Fixpoint switch_target (i : Z) (default : string)
    (cases : list (Z * string)) : string :=
  match cases with
  | [] => default
  | (c, l) :: rest => if Z.eqb i c then l else switch_target i default rest
  end.

(** One instruction; [None] is undefined behaviour (a store through a
    non-pointer, a load from unwritten memory, ...). *)
Definition exec_inst (m : machine) (i : Instruction)
    : option (machine * control) :=
  match i with
  | Store val ptr =>
      v ← eval_value m val;
      p ← eval_value m ptr;
      match p with
      | RPtr a => Some (mk_machine (m_args m) (m_regs m) (<[a := v]> (m_mem m)), Next)
      | _ => None
      end
  | Load r ptr =>
      p ← eval_value m ptr;
      match p with
      | RPtr a =>
          v ← m_mem m !! a;
          Some (mk_machine (m_args m) (<[r := v]> (m_regs m)) (m_mem m), Next)
      | _ => None
      end
  | Call callee args =>
      vs ← mapM (eval_value m) args;
      mem' ← call_external callee vs (m_mem m);
      Some (mk_machine (m_args m) (m_regs m) mem', Next)
  | Switch v default cases =>
      x ← eval_value m v;
      match x with
      | RInt i => Some (m, Jump (switch_target i default cases))
      | _ => None
      end
  | Br dest => Some (m, Jump dest)
  | RetVoid => Some (m, Return)
  end.

(** A block runs up to its terminator; falling off its end is
    undefined. *)
Fixpoint exec_insts (m : machine) (insts : list Instruction)
    : option (machine * control) :=
  match insts with
  | [] => None
  | i :: rest =>
      match exec_inst m i with
      | Some (m', Next) => exec_insts m' rest
      | r => r
      end
  end.

Definition find_block (f : Function) (l : string) : option BasicBlock :=
  List.find (fun b => String.eqb (bb_name b) l) (fn_blocks f).

Fixpoint exec_blocks (fuel : nat) (f : Function) (b : BasicBlock)
    (m : machine) : option machine :=
  match fuel with
  | O => None
  | S fuel' =>
      match exec_insts m (bb_insts b) with
      | Some (m', Return) => Some m'
      | Some (m', Jump l) =>
          b' ← find_block f l;
          exec_blocks fuel' f b' m'
      | _ => None
      end
  end.

(** Call [f] on [args] in memory [mem]; the result is the memory at
    return. *)
Definition run (fuel : nat) (f : Function) (args : list rtval)
    (mem : gmap nat rtval) : option (gmap nat rtval) :=
  entry ← head (fn_blocks f);
  m ← exec_blocks fuel f entry (mk_machine args ∅ mem);
  Some (m_mem m).

End Exec.

Arguments RPtr {data} a.
Arguments RInt {data} i.
Arguments RData {data} d.

End LLVMIR.

(* ===================================================================== *)
(** * [llvm_compiler_dual.cc]: the node function compiler *)
(* ===================================================================== *)

Module DualCompiler.

Import Nodes LLVMIR.

(** The result of a function-defining method: the function it built, an
    early [return] that builds nothing, or undefined behaviour (a null
    function called, a vector indexed out of range). *)
Inductive build (A : Type) : Type :=
| Built (x : A)
| Skipped
| Undefined.
Arguments Built {A} x.
Arguments Skipped {A}.
Arguments Undefined {A}.

(** Arguments gathered for the three elementary calls, with the
    iterator over the wrapper's formal arguments. *)
Record call_args : Type := mk_call_args {
  arg_it : nat;
  call_args_value : list Value;
  call_args_dx : list Value;
  call_args_dy : list Value
}.

Section Compiler.

(** Declared in [llvm_types.h], [llvm_modules.h] and the class header,
    none of which is among the sources. *)
Variable bvm_type_has_dual_value : TypeSpec -> bool.
Variable bvm_value_function_name : string -> string.
Variable bvm_deriv_function_name : string -> string.
Variable declare_node_function : Module_ -> NodeType -> option string.

Definition use_argument_pointer (typespec : TypeSpec) (use_dual : bool)
    : bool :=
  if use_dual && bvm_type_has_dual_value typespec then
    (* pass by reference *)
    true
  else if is_aggregate typespec || is_structure typespec then
    (* pass by reference *)
    true
  else
    (* pass by value *)
    false.

Definition use_elementary_argument_pointer (typespec : TypeSpec) : bool :=
  if is_aggregate typespec || is_structure typespec then true else false.

(** *** [define_dual_function_wrapper] *)

(** Body of the loop over the outputs: [val = arg_it++] and, for a
    dual-carrying output, [dx = arg_it++; dy = arg_it++]; a null [dx]
    or [dy] is not pushed. *)
Definition collect_output (st : call_args) (output : NodeOutput)
    : call_args :=
  let it := arg_it st in
  let '(val, dx, dy, it') :=
    if bvm_type_has_dual_value (output_typespec output)
    then (Argument it, Some (Argument (it + 1)), Some (Argument (it + 2)),
          it + 3)
    else (Argument it, None, None, it + 1) in
  mk_call_args it'
    (call_args_value st ++ [val])
    (call_args_dx st ++ option_list dx)
    (call_args_dy st ++ option_list dy).

(** Body of the loop over the inputs: the derivative functions take
    the input value as well as its derivative. *)
Definition collect_input (st : call_args) (input : NodeInput)
    : call_args :=
  let it := arg_it st in
  let '(val, dx, dy, it') :=
    if negb (is_constant (value_type input))
       && bvm_type_has_dual_value (input_typespec input)
    then (Argument it, Some (Argument (it + 1)), Some (Argument (it + 2)),
          it + 3)
    else (Argument it, None, None, it + 1) in
  mk_call_args it'
    (call_args_value st ++ [val])
    (call_args_dx st ++ [val] ++ option_list dx)
    (call_args_dy st ++ [val] ++ option_list dy).

Definition collect_call_args (nodetype : NodeType) : call_args :=
  fold_left collect_input (inputs nodetype)
    (fold_left collect_output (outputs nodetype)
       (mk_call_args 0 [] [] [])).

(** The loop [for (i = 0; i < num_outputs; ++i)] that zeroes the
    derivatives, started at index [i]: it stores through
    [call_args_dx[i]] and [call_args_dy[i]].  [None]: an index past
    the end of the vector. *)
Fixpoint zero_derivatives (i : nat) (outs : list NodeOutput)
    (args_dx args_dy : list Value) : option (list Instruction) :=
  match outs with
  | [] => Some []
  | output :: rest =>
      let typespec := output_typespec output in
      if bvm_type_has_dual_value typespec then
        let c := ConstantZero typespec in
        px ← args_dx !! i;
        py ← args_dy !! i;
        tl ← zero_derivatives (S i) rest args_dx args_dy;
        Some (Store c px :: Store c py :: tl)
      else zero_derivatives (S i) rest args_dx args_dy
  end.

Definition define_dual_function_wrapper (mod_ : Module_)
    (nodetype : NodeType) : build Function :=
  (* get evaluation function(s) *)
  let value_name := bvm_value_function_name (name nodetype) in
  let value_func := llvm_find_external_function mod_ value_name in
  let deriv_name := bvm_deriv_function_name (name nodetype) in
  let deriv_func := llvm_find_external_function mod_ deriv_name in
  (* wrapper function *)
  match declare_node_function mod_ nodetype with
  | None => Skipped
  | Some func =>
      let st := collect_call_args nodetype in
      match value_func with
      | None => Undefined
      | Some value_func =>
          (* calculate value *)
          let call_value := Call value_func (call_args_value st) in
          match deriv_func with
          | Some deriv_func =>
              Built (mk_Function func [mk_BasicBlock "entry"
                [call_value;
                 Call deriv_func (call_args_dx st);
                 Call deriv_func (call_args_dy st);
                 RetVoid]])
          | None =>
              (* zero the derivatives *)
              match zero_derivatives 0 (outputs nodetype)
                      (call_args_dx st) (call_args_dy st) with
              | Some stores =>
                  Built (mk_Function func [mk_BasicBlock "entry"
                    (call_value :: stores ++ [RetVoid])])
              | None => Undefined
              end
          end
      end
  end.

(** *** [define_get_derivative] *)

Definition define_get_derivative (mod_ : Module_) (nodetype : NodeType)
    : build Function :=
  match declare_node_function mod_ nodetype with
  | None => Skipped
  | Some func =>
      match find_input nodetype 1 with
      | None => Undefined
      | Some input1 =>
          let typespec := input_typespec input1 in
          let idx0 := 0%Z in
          let idx1 := 1%Z in
          let out_val := Argument 0 in
          let out_dx := Argument 1 in
          let out_dy := Argument 2 in
          let var := Argument 3 in
          let in_dx := Argument 5 in
          let in_dy := Argument 6 in
          let zero := ConstantZero typespec in
          let block :=
            mk_BasicBlock "entry"
              [Store zero out_dx;
               Store zero out_dy;
               Switch var "end" [(idx0, "var0"); (idx1, "var1")]] in
          let block_var0 :=
            mk_BasicBlock "var0"
              ((if use_argument_pointer typespec false
                then [Load 0 in_dx; Store (LoadResult 0) out_val]
                else [Store in_dx out_val])
               ++ [Br "end"]) in
          let block_var1 :=
            mk_BasicBlock "var1"
              ((if use_argument_pointer typespec false
                then [Load 1 in_dy; Store (LoadResult 1) out_val]
                else [Store in_dy out_val])
               ++ [Br "end"]) in
          let block_end := mk_BasicBlock "end" [RetVoid] in
          Built (mk_Function func
                   [block; block_var0; block_var1; block_end])
      end
  end.

End Compiler.

(** ** What the zeroing loop is meant to store *)

Section ZeroSpec.

Variable bvm_type_has_dual_value : TypeSpec -> bool.

(** The [dx] (resp. [dy]) formal arguments of the dual-carrying
    outputs, in order, when the first output starts at argument
    [it]. *)
Fixpoint output_dx_args (it : nat) (outs : list NodeOutput)
    : list Value :=
  match outs with
  | [] => []
  | output :: rest =>
      if bvm_type_has_dual_value (output_typespec output)
      then Argument (it + 1) :: output_dx_args (it + 3) rest
      else output_dx_args (it + 1) rest
  end.

Fixpoint output_dy_args (it : nat) (outs : list NodeOutput)
    : list Value :=
  match outs with
  | [] => []
  | output :: rest =>
      if bvm_type_has_dual_value (output_typespec output)
      then Argument (it + 2) :: output_dy_args (it + 3) rest
      else output_dy_args (it + 1) rest
  end.

(** Zero stored through the [dx] and the [dy] argument of every
    dual-carrying output. *)
Fixpoint expected_zero_stores (it : nat) (outs : list NodeOutput)
    : list Instruction :=
  match outs with
  | [] => []
  | output :: rest =>
      let typespec := output_typespec output in
      if bvm_type_has_dual_value typespec
      then Store (ConstantZero typespec) (Argument (it + 1))
           :: Store (ConstantZero typespec) (Argument (it + 2))
           :: expected_zero_stores (it + 3) rest
      else expected_zero_stores (it + 1) rest
  end.

Definition has_dual_output (output : NodeOutput) : bool :=
  bvm_type_has_dual_value (output_typespec output).

End ZeroSpec.

(** ** Run-time reading of [define_get_derivative] *)

Section GetDerivativeSpec.

Variable bvm_type_has_dual_value : TypeSpec -> bool.
Variable data : Type.
Variable bvm_make_zero : TypeSpec -> data.

(** The datum an upstream derivative argument stands for: the
    argument itself when passed by value, what it points to when
    passed by reference. *)
Definition upstream (typespec : TypeSpec) (mem : gmap nat (rtval data))
    (arg : rtval data) : option (rtval data) :=
  if use_argument_pointer bvm_type_has_dual_value typespec false
  then match arg with RPtr a => mem !! a | _ => None end
  else Some arg.

(** Memory after the zero constant has been stored through [out_dx]
    and then through [out_dy]. *)
Definition zeroed (typespec : TypeSpec) (out_dx out_dy : nat)
    (mem : gmap nat (rtval data)) : gmap nat (rtval data) :=
  <[out_dy := RData (bvm_make_zero typespec)]>
    (<[out_dx := RData (bvm_make_zero typespec)]> mem).

End GetDerivativeSpec.

(** ** Example node types *)

(** [INT_TO_RANDOM]: a constant seed and an integer in, an integer and a
    float out (the outputs [eval_op_int_to_random] stores). *)
Definition INT_TO_RANDOM : NodeType :=
  mk_NodeType "INT_TO_RANDOM"
    [mk_NodeInput "seed" TYPE_INT INPUT_CONSTANT;
     mk_NodeInput "value" TYPE_INT INPUT_EXPRESSION]
    [mk_NodeOutput "irandom" TYPE_INT;
     mk_NodeOutput "frandom" TYPE_FLOAT].

Definition ADD_FLOAT : NodeType :=
  mk_NodeType "ADD_FLOAT"
    [mk_NodeInput "value_a" TYPE_FLOAT INPUT_EXPRESSION;
     mk_NodeInput "value_b" TYPE_FLOAT INPUT_EXPRESSION]
    [mk_NodeOutput "value" TYPE_FLOAT].

Definition GET_DERIVATIVE_FLOAT : NodeType :=
  mk_NodeType "GET_DERIVATIVE_FLOAT"
    [mk_NodeInput "variable" TYPE_INT INPUT_CONSTANT;
     mk_NodeInput "value" TYPE_FLOAT INPUT_EXPRESSION]
    [mk_NodeOutput "derivative" TYPE_FLOAT].

Definition value_name (n : string) : string := String.append "V_" n.
Definition deriv_name (n : string) : string := String.append "D_" n.
Definition node_name (_ : Module_) (nt : NodeType) : option string :=
  Some (name nt).

(** Run-time data for the examples: a datum is its floats. *)
Definition example_data : Type := list F32.float.
Definition example_zero (t : TypeSpec) : example_data :=
  match base_type t with
  | BVM_FLOAT | BVM_INT => [F32.zero]
  | BVM_FLOAT3 => [F32.zero; F32.zero; F32.zero]
  | BVM_FLOAT4 => [F32.zero; F32.zero; F32.zero; F32.zero]
  | BVM_MATRIX44 => replicate 16 F32.zero
  end.
(** External functions that leave memory as it is. *)
Definition example_external (_ : string) (_ : list (rtval example_data))
    (mem : gmap nat (rtval example_data))
    : option (gmap nat (rtval example_data)) :=
  Some mem.

End DualCompiler.

(* ===================================================================== *)
(** * The texture expression cache ([BVM_texture_cache_*]) *)
(* ===================================================================== *)

Module TexCache.

(** Pointers are addresses; [None] is the null pointer. *)
Definition TexPtr : Type := positive.
Definition bNodeTree : Type := positive.
Definition Expression : Type := positive.
Definition BVMExpression : Type := option Expression.
Definition NULL : BVMExpression := None.

(** A texture datablock: its address, which is the cache key, and the
    two fields [acquire] reads through the pointer. *)
Record Tex : Type := mk_Tex {
  tex_ptr : TexPtr;
  use_nodes : bool;
  nodetree : option bNodeTree
}.

(** [typedef unordered_map<Tex*, bvm::Expression*> ExpressionCache];
    the global [bvm_tex_cache], with a ghost counter of the calls of
    [BVM_gen_texture_expression] made so far. *)
Record State : Type := mk_State {
  bvm_tex_cache : gmap TexPtr BVMExpression;
  compilations : nat
}.

Section Cache.

(** [BVM_gen_texture_expression(globals, tex, btree, NULL)] builds the
    node graph and compiles it; the expression it returns may depend
    on what was allocated before, which the ghost counter stands
    for.  It does not touch the cache. *)
Variable BVM_gen_texture_expression :
  nat -> Tex -> bNodeTree -> BVMExpression.

(** ** Sequential semantics (the lock is uncontended) *)

Definition BVM_texture_cache_acquire (tex : Tex) (s : State)
    : BVMExpression * State :=
  match bvm_tex_cache s !! tex_ptr tex with
  | Some e => (e, s)
  | None =>
      match use_nodes tex, nodetree tex with
      | true, Some tree =>
          let expr :=
            BVM_gen_texture_expression (compilations s) tex tree in
          (expr, mk_State (<[tex_ptr tex := expr]> (bvm_tex_cache s))
                          (S (compilations s)))
      | _, _ => (NULL, s)
      end
  end.

Definition BVM_texture_cache_release (tex : Tex) (s : State) : State := s.

Definition BVM_texture_cache_invalidate (tex : Tex) (s : State) : State :=
  match bvm_tex_cache s !! tex_ptr tex with
  | Some _ => mk_State (delete (tex_ptr tex) (bvm_tex_cache s))
                       (compilations s)
  | None => s
  end.

Definition BVM_texture_cache_clear (s : State) : State :=
  mk_State ∅ (compilations s).

(** ** Threads

    [acquire] run by several threads, cut at its accesses to shared
    data.  [scoped_lock lock(bvm_tex_mutex)] is the first statement of
    the function: the mutex is taken there and released by the
    destructor when the function returns. *)
Inductive pc : Type :=
| PLock                          (* before [scoped_lock lock(...)]    *)
| PFind                          (* before [bvm_tex_cache.find(tex)]  *)
| PGen (tree : bNodeTree)        (* before [BVM_gen_texture_expression] *)
| PInsert (expr : BVMExpression) (* before [bvm_tex_cache[tex] = ...] *)
| PUnlock (r : BVMExpression)    (* before the destructor of [lock]   *)
| PDone (r : BVMExpression).     (* returned [r]                      *)

Record Shared : Type := mk_Shared {
  sh_state : State;
  bvm_tex_mutex : option nat     (* the thread holding the mutex *)
}.

(** One step of thread [t] running [acquire(tex)]; [None] when the
    thread is blocked on the mutex or has returned. *)
Definition thread_step (t : nat) (tex : Tex) (sh : Shared) (p : pc)
    : option (Shared * pc) :=
  let s := sh_state sh in
  match p with
  | PLock =>
      match bvm_tex_mutex sh with
      | None => Some (mk_Shared s (Some t), PFind)
      | Some _ => None
      end
  | PFind =>
      match bvm_tex_cache s !! tex_ptr tex with
      | Some e => Some (sh, PUnlock e)
      | None =>
          match use_nodes tex, nodetree tex with
          | true, Some tree => Some (sh, PGen tree)
          | _, _ => Some (sh, PUnlock NULL)
          end
      end
  | PGen tree =>
      let expr := BVM_gen_texture_expression (compilations s) tex tree in
      Some (mk_Shared (mk_State (bvm_tex_cache s) (S (compilations s)))
                      (bvm_tex_mutex sh),
            PInsert expr)
  | PInsert expr =>
      Some (mk_Shared (mk_State (<[tex_ptr tex := expr]> (bvm_tex_cache s))
                                (compilations s))
                      (bvm_tex_mutex sh),
            PUnlock expr)
  | PUnlock r => Some (mk_Shared s None, PDone r)
  | PDone _ => None
  end.

(** The system: the shared data and the program counter of every
    thread; all threads run [acquire] on the same texture. *)
Record System : Type := mk_System {
  shared : Shared;
  threads : list pc
}.

Definition step (tex : Tex) (t : nat) (sys : System) : option System :=
  p ← threads sys !! t;
  '(sh', p') ← thread_step t tex (shared sys) p;
  Some (mk_System sh' (<[t := p']> (threads sys))).

(** Run a schedule: the scheduler picks thread [t]; a blocked or
    finished thread leaves the system as it is. *)
Fixpoint run_schedule (tex : Tex) (sched : list nat) (sys : System)
    : System :=
  match sched with
  | [] => sys
  | t :: rest => run_schedule tex rest (default sys (step tex t sys))
  end.

Definition initial (n : nat) (s : State) : System :=
  mk_System (mk_Shared s None) (replicate n PLock).

(** Does the thread hold the mutex at this point of the function? *)
Definition in_critical_section (p : pc) : bool :=
  match p with
  | PLock | PDone _ => false
  | PFind | PGen _ | PInsert _ | PUnlock _ => true
  end.

(** ** The invariant of concurrent [acquire]s of one texture

    [s0] is the state in which the threads were started; [acquire]
    run once on [s0], sequentially, returns [r0] and leaves [s1]. *)

(** The state between the return of [BVM_gen_texture_expression] and
    the insertion. *)
Definition compiled_state (s0 : State) : State :=
  mk_State (bvm_tex_cache s0) (S (compilations s0)).

Definition thread_ok (tex : Tex) (s0 st : State) (p : pc) : Prop :=
  let r0 := fst (BVM_texture_cache_acquire tex s0) in
  let s1 := snd (BVM_texture_cache_acquire tex s0) in
  match p with
  | PLock | PFind => True
  | PGen tree =>
      st = s0
      /\ bvm_tex_cache s0 !! tex_ptr tex = None
      /\ use_nodes tex = true /\ nodetree tex = Some tree
  | PInsert e =>
      e = r0 /\ st = compiled_state s0
      /\ s1 = mk_State (<[tex_ptr tex := r0]> (bvm_tex_cache s0))
                       (S (compilations s0))
  | PUnlock r | PDone r => r = r0 /\ st = s1
  end.

Record invariant (tex : Tex) (s0 : State) (sys : System) : Prop :=
  mk_invariant {
    (* a thread inside the function body holds the mutex *)
    inv_mutex : forall i p,
      threads sys !! i = Some p -> in_critical_section p = true ->
      bvm_tex_mutex (shared sys) = Some i;
    inv_threads : forall i p,
      threads sys !! i = Some p ->
      thread_ok tex s0 (sh_state (shared sys)) p;
    inv_state :
      sh_state (shared sys) = s0
      \/ sh_state (shared sys) = snd (BVM_texture_cache_acquire tex s0)
      \/ exists i e, threads sys !! i = Some (PInsert e)
  }.

End Cache.

(** ** An example texture and compiler *)

Definition texA : Tex := mk_Tex 7%positive true (Some 3%positive).
Definition tex_plain : Tex := mk_Tex 9%positive false (Some 3%positive).
(** The [n]-th compilation returns expression [n + 1]. *)
Definition example_gen (n : nat) (_ : Tex) (_ : bNodeTree)
    : BVMExpression :=
  Some (Pos.of_succ_nat n).
Definition empty_state : State := mk_State ∅ 0.

End TexCache.

(* ===================================================================== *)
(** * [bvm_eval_math.h]: further scalar and vector operations *)
(* ===================================================================== *)

Module EvalMathMore.

Import F32 EvalMath.

Definition sub : float -> float -> float := SFsub prec emax.

(** C's [a >= b] and [a < b]. *)
Definition geb (a b : float) : bool := SFleb b a.
Definition ltb (a b : float) : bool := SFltb a b.

(** [fabsf] clears the sign bit. *)
Definition fabsf : float -> float := SFabs.

Definition is_nan (x : float) : bool :=
  match x with S754_nan => true | _ => false end.

(** Neither a NaN nor an infinity. *)
Definition is_finite (x : float) : bool :=
  match x with
  | S754_zero _ | S754_finite _ _ _ => true
  | S754_infinity _ | S754_nan => false
  end.

(** ** Logged evaluation

    As in [EvalMath], with the libm calls [powf] and [logf] logged
    beside the machine division. *)
Inductive call : Type :=
| Op_fdiv (a b : float)
| Call_powf (a b : float)
| Call_logf (a : float).

Definition W (A : Type) : Type := (list call * A)%type.

Definition wret {A} (x : A) : W A := ([], x).
Definition wbind {A B} (m : W A) (k : A -> W B) : W B :=
  let '(t1, a) := m in
  let '(t2, b) := k a in
  (t1 ++ t2, b).

Notation "'let+' x ':=' m 'in' k" := (wbind m (fun x => k))
  (at level 10, x name, m at level 100, k at level 200).

Definition calls {A} (m : W A) : list call := fst m.
Definition result {A} (m : W A) : A := snd m.

Definition wdiv (a b : float) : W float := ([Op_fdiv a b], div a b).

Section Ops.

Variable Stack : Type.
Variable stack_load_float : Stack -> StackIndex -> float.
Variable stack_load_float3 : Stack -> StackIndex -> float3.
Variable stack_store_float : Stack -> StackIndex -> float -> Stack.
Variable stack_store_float3 : Stack -> StackIndex -> float3 -> Stack.

(** libm's [powf] and [logf]. *)
Variable powf : float -> float -> float.
Variable logf : float -> float.

Definition call_powf (a b : float) : W float := ([Call_powf a b], powf a b).
Definition call_logf (a : float) : W float := ([Call_logf a], logf a).

Definition eval_op_sub_float (stack : Stack)
    (offset_a offset_b offset_r : StackIndex) : Stack :=
  let a := stack_load_float stack offset_a in
  let b := stack_load_float stack offset_b in
  stack_store_float stack offset_r (sub a b).

Definition eval_op_mul_float (stack : Stack)
    (offset_a offset_b offset_r : StackIndex) : Stack :=
  let a := stack_load_float stack offset_a in
  let b := stack_load_float stack offset_b in
  stack_store_float stack offset_r (mul a b).

Definition eval_op_power (stack : Stack)
    (offset_a offset_b offset_r : StackIndex) : W Stack :=
  let a := stack_load_float stack offset_a in
  let b := stack_load_float stack offset_b in
  let+ r := (if geb a zero then call_powf a b else wret zero) in
  wret (stack_store_float stack offset_r r).

(** The two [logf] calls are logged left to right; C leaves the order of
    the operands of [/] open. *)
Definition eval_op_logarithm (stack : Stack)
    (offset_a offset_b offset_r : StackIndex) : W Stack :=
  let a := stack_load_float stack offset_a in
  let b := stack_load_float stack offset_b in
  let+ r := (if geb a zero && geb b zero
             then let+ la := call_logf a in
                  let+ lb := call_logf b in
                  wdiv la lb
             else wret zero) in
  wret (stack_store_float stack offset_r r).

Definition eval_op_less_than (stack : Stack)
    (offset_a offset_b offset_r : StackIndex) : Stack :=
  let a := stack_load_float stack offset_a in
  let b := stack_load_float stack offset_b in
  stack_store_float stack offset_r (if ltb a b then one else zero).

Definition eval_op_greater_than (stack : Stack)
    (offset_a offset_b offset_r : StackIndex) : Stack :=
  let a := stack_load_float stack offset_a in
  let b := stack_load_float stack offset_b in
  stack_store_float stack offset_r (if gtb a b then one else zero).

Definition eval_op_absolute (stack : Stack)
    (offset offset_r : StackIndex) : Stack :=
  let f := stack_load_float stack offset in
  stack_store_float stack offset_r (fabsf f).

Definition eval_op_add_float3 (stack : Stack)
    (offset_a offset_b offset_r : StackIndex) : Stack :=
  let a := stack_load_float3 stack offset_a in
  let b := stack_load_float3 stack offset_b in
  stack_store_float3 stack offset_r
    (mk_float3 (add (f3x a) (f3x b)) (add (f3y a) (f3y b))
               (add (f3z a) (f3z b))).

Definition eval_op_sub_float3 (stack : Stack)
    (offset_a offset_b offset_r : StackIndex) : Stack :=
  let a := stack_load_float3 stack offset_a in
  let b := stack_load_float3 stack offset_b in
  stack_store_float3 stack offset_r
    (mk_float3 (sub (f3x a) (f3x b)) (sub (f3y a) (f3y b))
               (sub (f3z a) (f3z b))).

Definition eval_op_mul_float3 (stack : Stack)
    (offset_a offset_b offset_r : StackIndex) : Stack :=
  let a := stack_load_float3 stack offset_a in
  let b := stack_load_float3 stack offset_b in
  stack_store_float3 stack offset_r
    (mk_float3 (mul (f3x a) (f3x b)) (mul (f3y a) (f3y b))
               (mul (f3z a) (f3z b))).

Definition eval_op_mul_float3_float (stack : Stack)
    (offset_a offset_b offset_r : StackIndex) : Stack :=
  let a := stack_load_float3 stack offset_a in
  let b := stack_load_float stack offset_b in
  stack_store_float3 stack offset_r
    (mk_float3 (mul (f3x a) b) (mul (f3y a) b) (mul (f3z a) b)).

Definition eval_op_dot_float3 (stack : Stack)
    (offset_a offset_b offset_r : StackIndex) : Stack :=
  let a := stack_load_float3 stack offset_a in
  let b := stack_load_float3 stack offset_b in
  stack_store_float stack offset_r
    (add (add (mul (f3x a) (f3x b)) (mul (f3y a) (f3y b)))
         (mul (f3z a) (f3z b))).

Definition eval_op_cross_float3 (stack : Stack)
    (offset_a offset_b offset_r : StackIndex) : Stack :=
  let a := stack_load_float3 stack offset_a in
  let b := stack_load_float3 stack offset_b in
  stack_store_float3 stack offset_r
    (mk_float3 (sub (mul (f3y a) (f3z b)) (mul (f3z a) (f3y b)))
               (sub (mul (f3z a) (f3x b)) (mul (f3x a) (f3z b)))
               (sub (mul (f3x a) (f3y b)) (mul (f3y a) (f3x b)))).

End Ops.

(** A stand-in for [logf] on the examples, exact at 1. *)
Definition example_logf (x : float) : float :=
  if eqb x one then zero else x.

End EvalMathMore.

(* ===================================================================== *)
(** * [bvm_api.cc]: evaluation globals and the compile context *)
(* ===================================================================== *)

Module CompileCtx.

(** [struct Object *] *)
Definition ObjectPtr : Type := positive.

(** [bvm::EvalGlobals]: the vector [objects]. *)
Record EvalGlobals : Type := mk_EvalGlobals {
  objects : list ObjectPtr
}.

(** [BVM_globals_create] and [BVM_globals_add_object]
    ([objects.push_back(ob)]). *)
Definition BVM_globals_create : EvalGlobals := mk_EvalGlobals [].
Definition BVM_globals_add_object (globals : EvalGlobals) (ob : ObjectPtr)
    : EvalGlobals :=
  mk_EvalGlobals (objects globals ++ [ob]).

(** [typedef std::map<struct Object *, int> ObjectPtrMap] *)
Abbreviation ObjectPtrMap := (gmap ObjectPtr Z).

(** The constructor's loop
    [for (i = 0; i < objects.size(); ++i) obmap[objects[i]] = i],
    from index [i] on. *)
Fixpoint fill_obmap (i : Z) (obs : list ObjectPtr) (obmap : ObjectPtrMap)
    : ObjectPtrMap :=
  match obs with
  | [] => obmap
  | ob :: rest => fill_obmap (i + 1) rest (<[ob := i]> obmap)
  end.

(** [CompileContext(const bvm::EvalGlobals *globals)] *)
Definition CompileContext (globals : EvalGlobals) : ObjectPtrMap :=
  fill_obmap 0 (objects globals) ∅.

(** [CompileContext::get_object_index], which
    [BVM_compile_get_object_index] forwards to. *)
Definition get_object_index (obmap : ObjectPtrMap) (ob : ObjectPtr) : Z :=
  match obmap !! ob with
  | Some i => i
  | None => -1
  end.

End CompileCtx.

(* ===================================================================== *)
(** * The texture cache: progress of concurrent [acquire]s *)
(* ===================================================================== *)

Module TexCacheProgress.

Import TexCache.

(** The steps a thread has left before it returns, at most. *)
Definition remaining (p : pc) : nat :=
  match p with
  | PLock => 5
  | PFind => 4
  | PGen _ => 3
  | PInsert _ => 2
  | PUnlock _ => 1
  | PDone _ => 0
  end.

Definition work (sys : System) : nat :=
  foldr (fun p n => remaining p + n) 0 (threads sys).

Definition finished (p : pc) : bool :=
  match p with PDone _ => true | _ => false end.

(** The mutex is held by a thread that is inside the function body. *)
Definition owner_inside (sys : System) : Prop :=
  forall i, bvm_tex_mutex (shared sys) = Some i ->
            exists p, threads sys !! i = Some p
                      /\ in_critical_section p = true.

End TexCacheProgress.

(* ===================================================================== *)
(** * [llvm_compiler_dual.cc]: signatures, node values, node functions *)
(* ===================================================================== *)

Module DualCompilerMore.

Import Nodes LLVMIR DualCompiler.

(** An [llvm::Type]: a type [bvm_get_llvm_type] returns, or a pointer to
    a type.  A [llvm::Type *] that may be null is an [option LType]. *)
Inductive LType : Type :=
| LNamed (id : nat)
| LPointer (t : LType).

(** [enum OpCode] of [util_opcode.h], as far as [define_node_function]
    tells its members apart. *)
Inductive OpCode : Type :=
| OP_GET_DERIVATIVE_FLOAT
| OP_GET_DERIVATIVE_FLOAT3
| OP_GET_DERIVATIVE_FLOAT4
| OP_OTHER (n : nat).

(** ** Values while a graph is lowered *)

(** [ConstOutputKey]: the addresses of the node and of its output
    socket. *)
Definition OutputKey : Type := (positive * positive)%type.

(** An [llvm::Value *] created while lowering; [INull] is the null
    pointer. *)
Inductive IRValue : Type :=
| INull
| IArgument (n : nat)
| IAlloca (id : nat)                        (* result of [CreateAlloca]    *)
| ILoaded (p : IRValue)                     (* result of [CreateLoad(p)]   *)
| IStructGEP (p : IRValue) (idx : nat)      (* [CreateStructGEP(p, idx)]   *)
| IConstant (c : nat).                      (* [bvm_create_llvm_constant]  *)

(** [DualValue(value, dx, dy)] *)
Record DualValue : Type := mk_DualValue {
  dv_value : IRValue;
  dv_dx : IRValue;
  dv_dy : IRValue
}.

(** Instructions the builder appends to the block. *)
Inductive BInstr : Type :=
| BAlloca (id : nat) (ty : option LType)
| BLoad (p : IRValue)
| BStore (v : IRValue) (p : IRValue)
| BStructGEP (p : IRValue) (idx : nat).

(** The compiler object while it lowers into one block:
    [m_output_values], the block's instructions, and the number of
    allocas created so far. *)
Record Lowering : Type := mk_Lowering {
  m_output_values : gmap OutputKey DualValue;
  block : list BInstr;
  allocas : nat
}.

Section Compiler.

Variable bvm_type_has_dual_value : TypeSpec -> bool.
Variable bvm_value_function_name : string -> string.
Variable bvm_deriv_function_name : string -> string.
Variable declare_node_function : Module_ -> NodeType -> option string.
(** [bvm_get_llvm_type(context(), spec, use_dual)]; [None] is null. *)
Variable bvm_get_llvm_type : TypeSpec -> bool -> option LType.
(** [output.socket->typedesc.get_typespec()] *)
Variable key_typespec : OutputKey -> TypeSpec.
Variable llvm_has_external_impl_value : OpCode -> bool.
Variable llvm_has_external_impl_deriv : OpCode -> bool.
(** [NodeGraph::find_node_type] *)
Variable find_node_type : string -> option NodeType.

Abbreviation use_argument_pointer :=
  (use_argument_pointer bvm_type_has_dual_value).

(** *** Parameter lists *)

(** [append_input_types]; [None]: [getPointerTo] on a null type. *)
Definition append_input_types (params : list (option LType))
    (spec : TypeSpec) (is_constant : bool)
    : option (list (option LType)) :=
  let type := bvm_get_llvm_type spec false in
  type ← (if use_argument_pointer spec false
          then t ← type; Some (Some (LPointer t))
          else Some type);
  let params := params ++ [type] in
  Some (if negb is_constant && bvm_type_has_dual_value spec
        then (* two derivatives *) params ++ [type; type]
        else params).

Definition append_output_types (params : list (option LType))
    (spec : TypeSpec) : list (option LType) :=
  let type := bvm_get_llvm_type spec false in
  let params := params ++ [type] in
  if bvm_type_has_dual_value spec
  then (* two derivatives *) params ++ [type; type]
  else params.

(** The parameter list of a node type: the outputs' types, then the
    inputs', as [define_dual_function_wrapper] walks its arguments. *)
Fixpoint append_all_output_types (params : list (option LType))
    (outs : list NodeOutput) : list (option LType) :=
  match outs with
  | [] => params
  | output :: rest =>
      append_all_output_types
        (append_output_types params (output_typespec output)) rest
  end.

Fixpoint append_all_input_types (params : list (option LType))
    (ins : list NodeInput) : option (list (option LType)) :=
  match ins with
  | [] => Some params
  | input :: rest =>
      params' ← append_input_types params (input_typespec input)
                  (is_constant (value_type input));
      append_all_input_types params' rest
  end.

Definition node_parameter_types (nodetype : NodeType)
    : option (list (option LType)) :=
  append_all_input_types
    (append_all_output_types [] (outputs nodetype)) (inputs nodetype).

(** *** [declare_elementary_node_function]

    The two loops; [None] when [error] was set, in which case the
    function returns null. *)
Fixpoint elementary_input_types (with_derivatives : bool)
    (ins : list NodeInput) : option (list LType) :=
  match ins with
  | [] => Some []
  | input :: rest =>
      let typespec := input_typespec input in
      type ← bvm_get_llvm_type typespec false;
      let type := if use_elementary_argument_pointer typespec
                  then LPointer type else type in
      let here :=
        if with_derivatives && negb (is_constant (value_type input))
           && bvm_type_has_dual_value typespec
        then (* second argument for derivative *) [type; type]
        else [type] in
      rest_types ← elementary_input_types with_derivatives rest;
      Some (here ++ rest_types)
  end.

Fixpoint elementary_output_types (with_derivatives : bool)
    (outs : list NodeOutput) : option (list LType) :=
  match outs with
  | [] => Some []
  | output :: rest =>
      let typespec := output_typespec output in
      type ← bvm_get_llvm_type typespec false;
      let here :=
        if with_derivatives && bvm_type_has_dual_value typespec
        then [type] else [type] in
      rest_types ← elementary_output_types with_derivatives rest;
      Some (here ++ rest_types)
  end.

(** The input and output types handed to [get_node_function_type], or
    [None] for the null function. *)
Definition declare_elementary_node_function (nodetype : NodeType)
    (with_derivatives : bool) : option (list LType * list LType) :=
  input_types ← elementary_input_types with_derivatives (inputs nodetype);
  output_types ← elementary_output_types with_derivatives (outputs nodetype);
  Some (input_types, output_types).

(** *** [define_elementary_functions], [define_node_function] *)

(** The body is cut short by [return false] before any function gets a
    definition. *)
Definition set_node_function_impl (op : OpCode) (value_func deriv_func :
    option string) : bool :=
  false.

(** [Function::Create(functype, ExternalLinkage, name, mod)] *)
Definition create_function (mod_ : Module_) (nm : string) : Module_ :=
  {[ nm ]} ∪ mod_.

Definition define_elementary_functions (mod_ : Module_) (op : OpCode)
    (nodetype : NodeType) : Module_ :=
  let mod_ :=
    if llvm_has_external_impl_value op
    then match declare_elementary_node_function nodetype false with
         | Some _ =>
             create_function mod_ (bvm_value_function_name (name nodetype))
         | None => mod_
         end
    else mod_ in
  let mod_ :=
    if llvm_has_external_impl_deriv op
    then match declare_elementary_node_function nodetype true with
         | Some _ =>
             create_function mod_ (bvm_deriv_function_name (name nodetype))
         | None => mod_
         end
    else mod_ in
  mod_.

(** The module as the elementary declarations leave it, and what was
    built for the node. *)
Definition define_node_function (mod_ : Module_) (op : OpCode)
    (nodetype_name : string) : Module_ * build Function :=
  match find_node_type nodetype_name with
  | None => (mod_, Skipped)
  | Some nodetype =>
      match op with
      (* special cases *)
      | OP_GET_DERIVATIVE_FLOAT
      | OP_GET_DERIVATIVE_FLOAT3
      | OP_GET_DERIVATIVE_FLOAT4 =>
          (mod_, define_get_derivative bvm_type_has_dual_value
                   declare_node_function mod_ nodetype)
      | OP_OTHER _ =>
          let mod_ := define_elementary_functions mod_ op nodetype in
          (mod_, define_dual_function_wrapper bvm_type_has_dual_value
                   bvm_value_function_name bvm_deriv_function_name
                   declare_node_function mod_ nodetype)
      end
  end.

(** *** Node values *)

Definition node_graph_end (c : Lowering) : Lowering :=
  mk_Lowering ∅ (block c) (allocas c).

Definition has_node_value (c : Lowering) (output : OutputKey) : bool :=
  bool_decide (is_Some (m_output_values c !! output)).

(** [std::map::insert]: the entry is added only when the key is new. *)
Definition map_insert_new (m : gmap OutputKey DualValue) (k : OutputKey)
    (v : DualValue) : gmap OutputKey DualValue :=
  match m !! k with
  | Some _ => m
  | None => <[k := v]> m
  end.

Definition alloc_node_value (c : Lowering) (output : OutputKey) : Lowering :=
  let typespec := key_typespec output in
  let type := bvm_get_llvm_type typespec false in
  let n := allocas c in
  let value := mk_DualValue (IAlloca n) (IAlloca (n + 1)) (IAlloca (n + 2)) in
  (* use as node output values *)
  mk_Lowering (map_insert_new (m_output_values c) output value)
    (block c ++ [BAlloca n type; BAlloca (n + 1) type; BAlloca (n + 2) type])
    (n + 3).

(** [None]: [m_output_values.at(from)] throws. *)
Definition copy_node_value (c : Lowering) (from to : OutputKey)
    : option Lowering :=
  value ← m_output_values c !! from;
  Some (mk_Lowering (map_insert_new (m_output_values c) to value)
          (block c) (allocas c)).

Definition append_output_arguments (c : Lowering) (args : list IRValue)
    (output : OutputKey) : option (list IRValue) :=
  val ← m_output_values c !! output;
  Some (args ++ [dv_value val; dv_dx val; dv_dy val]).

Definition append_input_value (c : Lowering) (args : list IRValue)
    (typespec : TypeSpec) (link : OutputKey)
    : option (Lowering * list IRValue) :=
  ptr ← m_output_values c !! link;
  if use_argument_pointer typespec false
  then Some (c, args ++ [dv_value ptr; dv_dx ptr; dv_dy ptr])
  else
    Some (mk_Lowering (m_output_values c)
            (block c ++ [BLoad (dv_value ptr); BLoad (dv_dx ptr);
                         BLoad (dv_dy ptr)])
            (allocas c),
          args ++ [ILoaded (dv_value ptr); ILoaded (dv_dx ptr);
                   ILoaded (dv_dy ptr)]).

Definition append_input_constant (c : Lowering) (args : list IRValue)
    (typespec : TypeSpec) (node_value : nat) : Lowering * list IRValue :=
  (* create storage for the global value *)
  let cvalue := IConstant node_value in
  if use_argument_pointer typespec false
  then
    let pvalue := IAlloca (allocas c) in
    (mk_Lowering (m_output_values c)
       (block c ++ [BAlloca (allocas c) None; BStore cvalue pvalue])
       (allocas c + 1),
     args ++ [pvalue])
  else (c, args ++ [cvalue]).

Definition map_argument (c : Lowering) (output : OutputKey) (arg : IRValue)
    : Lowering :=
  let typespec := key_typespec output in
  if bvm_type_has_dual_value typespec
  then
    (* argument is a struct, use GEP instructions to get the individual
       elements *)
    mk_Lowering
      (<[output := mk_DualValue (IStructGEP arg 0) (IStructGEP arg 1)
                                (IStructGEP arg 2)]>
         (m_output_values c))
      (block c ++ [BStructGEP arg 0; BStructGEP arg 1; BStructGEP arg 2])
      (allocas c)
  else
    mk_Lowering (<[output := mk_DualValue arg INull INull]>
                   (m_output_values c))
      (block c) (allocas c).

Definition store_return_value (c : Lowering) (output : OutputKey)
    (arg : IRValue) : option Lowering :=
  let value_ptr := IStructGEP arg 0 in
  let dx_ptr := IStructGEP arg 1 in
  let dy_ptr := IStructGEP arg 2 in
  dual ← m_output_values c !! output;
  let rvalue := ILoaded (dv_value dual) in
  let rdx := ILoaded (dv_dx dual) in
  let rdy := ILoaded (dv_dy dual) in
  Some (mk_Lowering (m_output_values c)
          (block c ++ [BStructGEP arg 0; BStructGEP arg 1; BStructGEP arg 2;
                       BLoad (dv_value dual); BLoad (dv_dx dual);
                       BLoad (dv_dy dual);
                       BStore rvalue value_ptr;
                       BStore rdx dx_ptr;
                       BStore rdy dy_ptr])
          (allocas c)).

End Compiler.

(** ** Examples *)

Definition example_llvm_type (t : TypeSpec) (_ : bool) : option LType :=
  Some (LNamed (match base_type t with
                | BVM_FLOAT => 0 | BVM_FLOAT3 => 1 | BVM_FLOAT4 => 2
                | BVM_INT => 3 | BVM_MATRIX44 => 4
                end)).

Definition example_registry (nm : string) : option NodeType :=
  if String.eqb nm "ADD_FLOAT" then Some ADD_FLOAT
  else if String.eqb nm "INT_TO_RANDOM" then Some INT_TO_RANDOM
  else if String.eqb nm "GET_DERIVATIVE_FLOAT" then Some GET_DERIVATIVE_FLOAT
  else None.

Definition empty_lowering : Lowering := mk_Lowering ∅ [] 0.

End DualCompilerMore.

(* ===================================================================== *)
(** * [bvm_api.cc]: [bNodeCompiler], the socket maps *)
(* ===================================================================== *)

Module NodeCompiler.

(** Addresses of [bNode], [bNodeSocket] and [NodeInstance] objects. *)
Definition bNodePtr : Type := positive.
Definition bNodeSocketPtr : Type := positive.
Definition NodeInstancePtr : Type := positive.

(** [bNodeSocket::type], as far as [map_input_socket] tells the values
    apart. *)
Inductive eNodeSocketDatatype : Type :=
| SOCK_FLOAT | SOCK_VECTOR | SOCK_RGBA | SOCK_INT | SOCK_OTHER.

Record bNodeSocket : Type := mk_bNodeSocket {
  sock_ptr : bNodeSocketPtr;
  sock_type : eNodeSocketDatatype
}.

Record bNode : Type := mk_bNode {
  bnode_ptr : bNodePtr;
  bnode_inputs : list bNodeSocket;
  bnode_outputs : list bNodeSocket
}.

(** [BLI_findlink(&listbase, index)]: the element at [index], or null. *)
Definition BLI_findlink (l : list bNodeSocket) (index : Z)
    : option bNodeSocket :=
  if (index <? 0)%Z then None else l !! Z.to_nat index.

(** [std::pair<bNode*, bNodeSocket*>]; the socket pointer may be null. *)
Definition bSocketPair : Type := (bNodePtr * option bNodeSocketPtr)%type.
(** [SocketPair]: a node instance and a socket name. *)
Definition SocketPair : Type := (NodeInstancePtr * string)%type.

Record bNodeLink : Type := mk_bNodeLink {
  fromnode : bNodePtr;
  fromsock : bNodeSocketPtr;
  tonode : bNodePtr;
  tosock : bNodeSocketPtr
}.

(** What the compiler asks of the graph and of its nodes:
    [m_graph->add_link(from.node, from.socket, to.node, to.socket,
    autoconvert)], and [node->set_input_value(name, v)] with [v] read
    from the default value of a [bNodeSocket]. *)
Inductive GraphCall : Type :=
| G_add_link (from to : SocketPair) (autoconvert : bool)
| G_set_input_default (node : NodeInstancePtr) (socket : string)
    (default_of : bNodeSocketPtr).

Record bNodeCompiler : Type := mk_bNodeCompiler {
  m_current_bnode : bNode;
  m_input_map : gmap bSocketPair (gset SocketPair);
  m_output_map : gmap bSocketPair SocketPair;
  graph_calls : list GraphCall
}.

Definition set_current_node (comp : bNodeCompiler) (node : bNode)
    : bNodeCompiler :=
  mk_bNodeCompiler node (m_input_map comp) (m_output_map comp)
    (graph_calls comp).

(** [None]: [binput] is null and is dereferenced. *)
Definition map_input_socket (comp : bNodeCompiler) (bindex : Z)
    (socket : SocketPair) : option bNodeCompiler :=
  binput ← BLI_findlink (bnode_inputs (m_current_bnode comp)) bindex;
  let node := fst socket in
  let name := snd socket in
  let key := (bnode_ptr (m_current_bnode comp), Some (sock_ptr binput)) in
  let input_map :=
    <[key := {[ socket ]} ∪ default ∅ (m_input_map comp !! key)]>
      (m_input_map comp) in
  let calls :=
    match sock_type binput with
    | SOCK_FLOAT | SOCK_VECTOR | SOCK_INT | SOCK_RGBA =>
        [G_set_input_default node name (sock_ptr binput)]
    | SOCK_OTHER => []
    end in
  Some (mk_bNodeCompiler (m_current_bnode comp) input_map
          (m_output_map comp) (graph_calls comp ++ calls)).

Definition map_output_socket (comp : bNodeCompiler) (bindex : Z)
    (socket : SocketPair) : bNodeCompiler :=
  let boutput := BLI_findlink (bnode_outputs (m_current_bnode comp)) bindex in
  let key := (bnode_ptr (m_current_bnode comp), sock_ptr <$> boutput) in
  mk_bNodeCompiler (m_current_bnode comp) (m_input_map comp)
    (<[key := socket]> (m_output_map comp)) (graph_calls comp).

(** [add_link]; the sockets of the set are visited in the order of its
    elements.  Where a socket is not mapped only a message is
    printed. *)
Definition add_link (comp : bNodeCompiler) (blink : bNodeLink)
    (autoconvert : bool) : bNodeCompiler :=
  match m_output_map comp !! (fromnode blink, Some (fromsock blink)),
        m_input_map comp !! (tonode blink, Some (tosock blink)) with
  | Some from_pair, Some to_set =>
      mk_bNodeCompiler (m_current_bnode comp) (m_input_map comp)
        (m_output_map comp)
        (graph_calls comp
         ++ map (fun to_pair => G_add_link from_pair to_pair autoconvert)
              (elements to_set))
  | _, _ => comp
  end.

Definition add_link_intern (comp : bNodeCompiler) (from to : SocketPair)
    (autoconvert : bool) : bNodeCompiler :=
  mk_bNodeCompiler (m_current_bnode comp) (m_input_map comp)
    (m_output_map comp)
    (graph_calls comp ++ [G_add_link from to autoconvert]).

(** ** Example: two Blender nodes *)

Definition bnode_A : bNode :=
  mk_bNode 10%positive [] [mk_bNodeSocket 11%positive SOCK_RGBA].
Definition bnode_B : bNode :=
  mk_bNode 20%positive
    [mk_bNodeSocket 21%positive SOCK_RGBA;
     mk_bNodeSocket 22%positive SOCK_OTHER] [].
Definition empty_compiler : bNodeCompiler :=
  mk_bNodeCompiler bnode_A ∅ ∅ [].

End NodeCompiler.

(* ===================================================================== *)
(** * Facts about binary32 *)
(* ===================================================================== *)

Module F32Facts.

Import F32.

(** [b == 0.0f] holds exactly for the two signed zeros. *)
Lemma eqb_zero_inv (b : float) :
  eqb b zero = true -> b = S754_zero false \/ b = S754_zero true.
Proof.
  destruct b as [[|]| [|] | | [|] m e]; cbn; intros H;
    try discriminate H; auto.
Qed.

Lemma eqb_zero_neb (b : float) : eqb b zero = true -> neb b zero = false.
Proof. unfold neb, eqb. intros ->. reflexivity. Qed.

(** [l > 0.0f] excludes both zeros (and NaN). *)
Lemma gtb_zero_nonzero (l : float) :
  gtb l zero = true -> eqb l zero = false.
Proof.
  destruct l as [[|]| [|] | | [|] m e]; cbn; intros H;
    try discriminate H; reflexivity.
Qed.

(** The literals of the normalize scenario, as bit patterns:
    [0.6f = 10066330 * 2^-24], [0.8f = 13421773 * 2^-24], [5.0f]. *)
Lemma lit_6_10 : lit 6 10 = S754_finite false 10066330 (-24).
Proof. vm_compute. reflexivity. Qed.

Lemma lit_8_10 : lit 8 10 = S754_finite false 13421773 (-24).
Proof. vm_compute. reflexivity. Qed.

(** 10066330 is the integer nearest to [0.6 * 2^24], and 13421773 the
    one nearest to [0.8 * 2^24]: twice the distance, scaled by 10, is
    below 10. *)
Lemma lit_6_10_nearest :
  (2 * Z.abs (10 * 10066330 - 6 * 2 ^ 24) < 10)%Z.
Proof. vm_compute. reflexivity. Qed.

Lemma lit_8_10_nearest :
  (2 * Z.abs (10 * 13421773 - 8 * 2 ^ 24) < 10)%Z.
Proof. vm_compute. reflexivity. Qed.

(** They are well-formed binary32 data. *)
Lemma scenario_floats_valid :
  valid (lit 6 10) = true /\ valid (lit 8 10) = true
  /\ valid (of_Z 5) = true /\ valid zero = true.
Proof. vm_compute. auto. Qed.

End F32Facts.

(* ===================================================================== *)
(** * Facts about [bvm_eval_math.h] *)
(* ===================================================================== *)

Module EvalMathFacts.

Import F32 EvalMath F32Facts.

Section Facts.

Variable Stack : Type.
Variable stack_load_float : Stack -> StackIndex -> float.
Variable stack_load_float3 : Stack -> StackIndex -> float3.
Variable stack_store_float : Stack -> StackIndex -> float -> Stack.
Variable stack_store_float3 : Stack -> StackIndex -> float3 -> Stack.
Variable fmodf : float -> float -> float.

Abbreviation eval_op_div_float :=
  (eval_op_div_float Stack stack_load_float stack_store_float).
Abbreviation eval_op_modulo :=
  (eval_op_modulo Stack stack_load_float stack_store_float fmodf).
Abbreviation eval_op_normalize_float3 :=
  (eval_op_normalize_float3 Stack stack_load_float3 stack_store_float
     stack_store_float3).

(** [div_safe] divides only by a non-zero divisor. *)
Lemma div_safe_log (a b : float) :
  log (div_safe a b) = if neb b zero then [Ev_fdiv a b] else [].
Proof. unfold div_safe. destruct (neb b zero); reflexivity. Qed.

(** C3. With a divisor that compares equal to zero, [DIV_FLOAT] stores
    the sentinel 0.0 in the result slot, whatever the dividend; it
    runs to completion and executes no division at all. *)
Theorem eval_op_div_float_zero_divisor
    (stack : Stack) (offset_a offset_b offset_r : StackIndex) :
  eqb (stack_load_float stack offset_b) zero = true ->
  eval_op_div_float stack offset_a offset_b offset_r
  = ret (stack_store_float stack offset_r zero).
Proof.
  intros Hb. unfold EvalMath.eval_op_div_float, div_safe.
  rewrite (eqb_zero_neb _ Hb). reflexivity.
Qed.

(** C8. On the input vector (3, 4, 0) the normalize operation stores
    the vector (0.6, 0.8, 0) at [offset_vec] and then the length 5.0
    at [offset_val]. *)
Theorem eval_op_normalize_float3_3_4_0
    (stack : Stack) (offset offset_vec offset_val : StackIndex) :
  stack_load_float3 stack offset = mk_float3 (of_Z 3) (of_Z 4) zero ->
  value (eval_op_normalize_float3 stack offset offset_vec offset_val)
  = stack_store_float
      (stack_store_float3 stack offset_vec
         (mk_float3 (lit 6 10) (lit 8 10) zero))
      offset_val (of_Z 5).
Proof.
  intros Hv. unfold EvalMath.eval_op_normalize_float3.
  rewrite Hv. vm_compute. reflexivity.
Qed.

(** Every division the normalize operation executes has a divisor
    that is strictly positive. *)
Lemma eval_op_normalize_float3_divisors
    (stack : Stack) (offset offset_vec offset_val : StackIndex)
    (a b : float) :
  In (Ev_fdiv a b)
     (log (eval_op_normalize_float3 stack offset offset_vec offset_val)) ->
  gtb b zero = true.
Proof.
  unfold EvalMath.eval_op_normalize_float3.
  set (v := stack_load_float3 stack offset).
  set (l := sqrtf _).
  destruct (gtb l zero) eqn:Hl; cbn.
  - intros [Heq | []]. injection Heq as _ <-. exact Hl.
  - intros [].
Qed.

(** C9. On the zero vector the normalize operation stores the zero
    vector and the length 0; and on every input, each division it
    executes has a divisor [b] with [b > 0], so none divides by
    zero. *)
Theorem eval_op_normalize_float3_guarded
    (stack : Stack) (offset offset_vec offset_val : StackIndex) :
  (stack_load_float3 stack offset = mk_float3 zero zero zero ->
   eval_op_normalize_float3 stack offset offset_vec offset_val
   = ret (stack_store_float
            (stack_store_float3 stack offset_vec
               (mk_float3 zero zero zero))
            offset_val zero))
  /\ (forall a b : float,
        In (Ev_fdiv a b)
           (log (eval_op_normalize_float3 stack offset offset_vec
                   offset_val)) ->
        gtb b zero = true /\ eqb b zero = false).
Proof.
  split.
  - intros Hv. unfold EvalMath.eval_op_normalize_float3.
    rewrite Hv. vm_compute. reflexivity.
  - intros a b Hin.
    pose proof (eval_op_normalize_float3_divisors _ _ _ _ _ _ Hin) as Hb.
    split; [exact Hb | exact (gtb_zero_nonzero _ Hb)].
Qed.

(** C10. With a divisor that compares equal to zero, [MODULO] stores
    exactly 0.0 whatever the dividend and does not call [fmodf]; and
    on every input, each call of [fmodf] it makes has a divisor [b]
    with [b != 0]. *)
Theorem eval_op_modulo_zero_divisor
    (stack : Stack) (offset_a offset_b offset_r : StackIndex) :
  (eqb (stack_load_float stack offset_b) zero = true ->
   eval_op_modulo stack offset_a offset_b offset_r
   = ret (stack_store_float stack offset_r zero))
  /\ (forall a b : float,
        In (Ev_fmodf a b)
           (log (eval_op_modulo stack offset_a offset_b offset_r)) ->
        neb b zero = true).
Proof.
  unfold EvalMath.eval_op_modulo. split.
  - intros Hb. rewrite (eqb_zero_neb _ Hb). reflexivity.
  - intros a b.
    destruct (neb (stack_load_float stack offset_b) zero) eqn:Hb; cbn.
    + intros [Heq | []]. injection Heq as _ <-. exact Hb.
    + intros [].
Qed.

End Facts.

(** ** The scenarios on a concrete stack *)

Abbreviation array_div_float :=
  (eval_op_div_float ArrayStack array_load_float array_store_float).
Abbreviation array_normalize :=
  (eval_op_normalize_float3 ArrayStack array_load_float3 array_store_float
     array_store_float3).

(** [ADD_FLOAT] on (2.0, 3.0) stores 5.0. *)
Example eval_op_add_float_2_3 :
  eval_op_add_float ArrayStack array_load_float array_store_float
    [of_Z 2; of_Z 3; zero] 0%Z 1%Z 2%Z
  = ret [of_Z 2; of_Z 3; of_Z 5].
Proof. vm_compute. reflexivity. Qed.

(** [DIV_FLOAT] on (1.0, 0.0): cells 0 and 1 hold the inputs, cell 2
    receives 0.0. *)
Lemma eval_op_div_float_one_by_zero :
  eqb (array_load_float [one; zero; one] 1%Z) zero = true
  /\ array_div_float [one; zero; one] 0%Z 1%Z 2%Z = ret [one; zero; zero].
Proof.
  split; [reflexivity |].
  apply (eval_op_div_float_zero_divisor ArrayStack array_load_float
           array_store_float [one; zero; one] 0%Z 1%Z 2%Z).
  reflexivity.
Defined.

(** Normalize on (3, 4, 0) held in cells 0..2; the vector goes to cells
    3..5 and the length to cell 6. *)
Lemma eval_op_normalize_float3_3_4_0_run :
  value (array_normalize
           [of_Z 3; of_Z 4; zero; zero; zero; zero; zero] 0%Z 3%Z 6%Z)
  = [of_Z 3; of_Z 4; zero; lit 6 10; lit 8 10; zero; of_Z 5].
Proof.
  apply (eval_op_normalize_float3_3_4_0 ArrayStack array_load_float3
           array_store_float array_store_float3
           [of_Z 3; of_Z 4; zero; zero; zero; zero; zero] 0%Z 3%Z 6%Z).
  reflexivity.
Defined.

(** Normalize on the zero vector. *)
Lemma eval_op_normalize_float3_zero_run :
  array_normalize [zero; zero; zero; one; one; one; one] 0%Z 3%Z 6%Z
  = ret [zero; zero; zero; zero; zero; zero; zero].
Proof.
  apply (proj1 (eval_op_normalize_float3_guarded ArrayStack
                  array_load_float3 array_store_float array_store_float3
                  [zero; zero; zero; one; one; one; one] 0%Z 3%Z 6%Z)).
  reflexivity.
Defined.

(** [MODULO] on (5.0, -0.0) with an arbitrary stand-in for [fmodf]. *)
Lemma eval_op_modulo_by_negative_zero :
  eval_op_modulo ArrayStack array_load_float array_store_float
    (fun a _ => a) [of_Z 5; S754_zero true; one] 0%Z 1%Z 2%Z
  = ret [of_Z 5; S754_zero true; zero].
Proof.
  apply (proj1 (eval_op_modulo_zero_divisor ArrayStack array_load_float
                  array_store_float (fun a _ => a)
                  [of_Z 5; S754_zero true; one] 0%Z 1%Z 2%Z)).
  reflexivity.
Defined.

End EvalMathFacts.

(* ===================================================================== *)
(** * Facts about the node function compiler *)
(* ===================================================================== *)

Module DualCompilerFacts.

Import Nodes LLVMIR DualCompiler.

Section Facts.

Variable bvm_type_has_dual_value : TypeSpec -> bool.
Variable bvm_value_function_name : string -> string.
Variable bvm_deriv_function_name : string -> string.
Variable declare_node_function : Module_ -> NodeType -> option string.

Abbreviation use_argument_pointer :=
  (use_argument_pointer bvm_type_has_dual_value).
Abbreviation define_get_derivative :=
  (define_get_derivative bvm_type_has_dual_value declare_node_function).

(** C6. An argument is passed by reference exactly when its type is an
    aggregate or a structure, or when [use_dual] is set and the type
    has a dual value; otherwise it is passed by value. *)
Theorem use_argument_pointer_spec (typespec : TypeSpec) (use_dual : bool) :
  use_argument_pointer typespec use_dual
  = (is_aggregate typespec || is_structure typespec)
    || (use_dual && bvm_type_has_dual_value typespec).
Proof.
  unfold DualCompiler.use_argument_pointer.
  destruct use_dual, (bvm_type_has_dual_value typespec),
    (is_aggregate typespec), (is_structure typespec); reflexivity.
Qed.

(** ** [define_dual_function_wrapper] *)

Abbreviation collect_output := (collect_output bvm_type_has_dual_value).
Abbreviation collect_input := (collect_input bvm_type_has_dual_value).
Abbreviation collect_call_args :=
  (collect_call_args bvm_type_has_dual_value).
Abbreviation zero_derivatives :=
  (zero_derivatives bvm_type_has_dual_value).
Abbreviation define_dual_function_wrapper :=
  (define_dual_function_wrapper bvm_type_has_dual_value
     bvm_value_function_name bvm_deriv_function_name
     declare_node_function).
Abbreviation output_dx_args := (output_dx_args bvm_type_has_dual_value).
Abbreviation output_dy_args := (output_dy_args bvm_type_has_dual_value).
Abbreviation expected_zero_stores :=
  (expected_zero_stores bvm_type_has_dual_value).
Abbreviation has_dual_output := (has_dual_output bvm_type_has_dual_value).

Lemma llvm_find_external_function_Some (mod_ : Module_) (nm : string) :
  nm ∈ mod_ -> llvm_find_external_function mod_ nm = Some nm.
Proof.
  intros H. unfold llvm_find_external_function.
  rewrite bool_decide_eq_true_2; [reflexivity | exact H].
Qed.

Lemma llvm_find_external_function_None (mod_ : Module_) (nm : string) :
  nm ∉ mod_ -> llvm_find_external_function mod_ nm = None.
Proof.
  intros H. unfold llvm_find_external_function.
  rewrite bool_decide_eq_false_2; [reflexivity | exact H].
Qed.

(** With a value function and a derivative function, the wrapper is
    one call of the value function on the value arguments followed by
    two calls of the derivative function, on the dx set and on the dy
    set. *)
Lemma dual_wrapper_with_derivative
    (mod_ : Module_) (nodetype : NodeType) (func : string) :
  declare_node_function mod_ nodetype = Some func ->
  bvm_value_function_name (name nodetype) ∈ mod_ ->
  bvm_deriv_function_name (name nodetype) ∈ mod_ ->
  define_dual_function_wrapper mod_ nodetype
  = Built (mk_Function func [mk_BasicBlock "entry"
      [Call (bvm_value_function_name (name nodetype))
            (call_args_value (collect_call_args nodetype));
       Call (bvm_deriv_function_name (name nodetype))
            (call_args_dx (collect_call_args nodetype));
       Call (bvm_deriv_function_name (name nodetype))
            (call_args_dy (collect_call_args nodetype));
       RetVoid]]).
Proof.
  intros Hdecl Hv Hd. unfold DualCompiler.define_dual_function_wrapper.
  rewrite Hdecl, (llvm_find_external_function_Some _ _ Hv),
    (llvm_find_external_function_Some _ _ Hd).
  reflexivity.
Qed.

(** The zeroing loop emits stores only. *)
Lemma zero_derivatives_stores (outs : list NodeOutput) :
  forall (i : nat) (dx dy : list Value) (stores : list Instruction),
    zero_derivatives i outs dx dy = Some stores ->
    Forall (fun ins => exists v p, ins = Store v p) stores.
Proof.
  induction outs as [| o outs IH]; intros i dx dy stores; cbn.
  - intros [= <-]. constructor.
  - destruct (bvm_type_has_dual_value (output_typespec o)).
    + destruct (dx !! i) as [px |]; [| discriminate].
      destruct (dy !! i) as [py |]; [| discriminate]. cbn.
      destruct (zero_derivatives (S i) outs dx dy) as [tl |] eqn:Htl;
        [| discriminate].
      cbn. intros [= <-].
      repeat (constructor; [eauto |]). eapply IH, Htl.
    + apply IH.
Qed.

(** Without a derivative function, the wrapper is one call of the
    value function followed by the stores of the zeroing loop. *)
Lemma dual_wrapper_without_derivative
    (mod_ : Module_) (nodetype : NodeType) (func : string)
    (f : Function) :
  declare_node_function mod_ nodetype = Some func ->
  bvm_value_function_name (name nodetype) ∈ mod_ ->
  bvm_deriv_function_name (name nodetype) ∉ mod_ ->
  define_dual_function_wrapper mod_ nodetype = Built f ->
  exists stores,
    zero_derivatives 0 (outputs nodetype)
      (call_args_dx (collect_call_args nodetype))
      (call_args_dy (collect_call_args nodetype)) = Some stores
    /\ Forall (fun ins => exists v p, ins = Store v p) stores
    /\ f = mk_Function func [mk_BasicBlock "entry"
             (Call (bvm_value_function_name (name nodetype))
                   (call_args_value (collect_call_args nodetype))
              :: stores ++ [RetVoid])].
Proof.
  intros Hdecl Hv Hd. unfold DualCompiler.define_dual_function_wrapper.
  rewrite Hdecl, (llvm_find_external_function_Some _ _ Hv),
    (llvm_find_external_function_None _ _ Hd).
  destruct (zero_derivatives 0 _ _ _) as [stores |] eqn:Hz;
    [| discriminate].
  intros [= <-]. exists stores.
  split; [reflexivity |]. split; [| reflexivity].
  eapply zero_derivatives_stores, Hz.
Qed.

(** The outputs loop appends to the dx (dy) vector the dx (dy)
    arguments of the dual-carrying outputs, and only those. *)
Lemma collect_outputs_spec (outs : list NodeOutput) :
  forall st : call_args,
    call_args_dx (fold_left collect_output outs st)
    = call_args_dx st ++ output_dx_args (arg_it st) outs
    /\ call_args_dy (fold_left collect_output outs st)
      = call_args_dy st ++ output_dy_args (arg_it st) outs.
Proof.
  induction outs as [| o outs IH]; intros st; cbn.
  - rewrite !app_nil_r. split; reflexivity.
  - destruct (IH (collect_output st o)) as [-> ->].
    unfold DualCompiler.collect_output.
    destruct (bvm_type_has_dual_value (output_typespec o)); cbn;
      rewrite <- ?app_assoc; cbn; rewrite ?app_nil_r; split; reflexivity.
Qed.

(** The inputs loop only appends. *)
Lemma collect_inputs_spec (ins : list NodeInput) :
  forall st : call_args,
    exists sx sy,
      call_args_dx (fold_left collect_input ins st)
      = call_args_dx st ++ sx
      /\ call_args_dy (fold_left collect_input ins st)
        = call_args_dy st ++ sy.
Proof.
  induction ins as [| i ins IH]; intros st; cbn.
  - exists [], []. rewrite !app_nil_r. split; reflexivity.
  - destruct (IH (collect_input st i)) as (sx & sy & -> & ->).
    unfold DualCompiler.collect_input.
    destruct (negb (is_constant (value_type i))
              && bvm_type_has_dual_value (input_typespec i)); cbn;
      rewrite <- !app_assoc; eauto.
Qed.

(** On outputs none of which carries a dual value the loop stores
    nothing. *)
Lemma zero_derivatives_no_dual (outs : list NodeOutput) :
  forall (i : nat) (dx dy : list Value),
    Forall (fun o => has_dual_output o = false) outs ->
    zero_derivatives i outs dx dy = Some [].
Proof.
  induction outs as [| o outs IH]; intros i dx dy Hall; cbn.
  - reflexivity.
  - inversion Hall as [| ? ? Ho Hrest]; subst.
    unfold DualCompiler.has_dual_output in Ho. rewrite Ho.
    apply IH, Hrest.
Qed.

Lemma expected_zero_stores_no_dual (outs : list NodeOutput) :
  forall it : nat,
    Forall (fun o => has_dual_output o = false) outs ->
    expected_zero_stores it outs = []
    /\ output_dx_args it outs = [] /\ output_dy_args it outs = [].
Proof.
  induction outs as [| o outs IH]; intros it Hall; cbn.
  - auto.
  - inversion Hall as [| ? ? Ho Hrest]; subst.
    unfold DualCompiler.has_dual_output in Ho. rewrite Ho.
    apply IH, Hrest.
Qed.

(** When the dual-carrying outputs come first, index [i] of the dx
    vector is the dx argument of output [i], and the loop stores what
    it is meant to. *)
Lemma zero_derivatives_duals_first (duals nonduals : list NodeOutput) :
  forall (it : nat) (px py sx sy : list Value),
    Forall (fun o => has_dual_output o = true) duals ->
    Forall (fun o => has_dual_output o = false) nonduals ->
    length py = length px ->
    zero_derivatives (length px) (duals ++ nonduals)
      (px ++ output_dx_args it (duals ++ nonduals) ++ sx)
      (py ++ output_dy_args it (duals ++ nonduals) ++ sy)
    = Some (expected_zero_stores it (duals ++ nonduals)).
Proof.
  induction duals as [| o duals IH];
    intros it px py sx sy Hd Hn Hlen; cbn.
  - rewrite zero_derivatives_no_dual by exact Hn.
    destruct (expected_zero_stores_no_dual nonduals it Hn) as (-> & _).
    reflexivity.
  - inversion Hd as [| ? ? Ho Hrest]; subst.
    unfold DualCompiler.has_dual_output in Ho. rewrite Ho. cbn.
    rewrite (list_lookup_middle px _ _ (length px) eq_refl).
    rewrite (list_lookup_middle py _ _ (length px) (eq_sym Hlen)). cbn.
    specialize (IH (it + 3) (px ++ [Argument (it + 1)])
                   (py ++ [Argument (it + 2)]) sx sy Hrest Hn).
    rewrite !length_app, <- !app_assoc in IH. cbn in IH.
    replace (length px + 1) with (S (length px)) in IH by lia.
    rewrite IH by lia.
    reflexivity.
Qed.

(** Hence, for a node type whose dual-carrying outputs all precede
    the others and which has no derivative function, the wrapper
    stores zero through the dx and dy argument of every dual-carrying
    output. *)
Lemma dual_wrapper_zeroes_duals_first
    (mod_ : Module_) (nodetype : NodeType) (func : string)
    (duals nonduals : list NodeOutput) :
  declare_node_function mod_ nodetype = Some func ->
  bvm_value_function_name (name nodetype) ∈ mod_ ->
  bvm_deriv_function_name (name nodetype) ∉ mod_ ->
  outputs nodetype = duals ++ nonduals ->
  Forall (fun o => has_dual_output o = true) duals ->
  Forall (fun o => has_dual_output o = false) nonduals ->
  define_dual_function_wrapper mod_ nodetype
  = Built (mk_Function func [mk_BasicBlock "entry"
      (Call (bvm_value_function_name (name nodetype))
            (call_args_value (collect_call_args nodetype))
       :: expected_zero_stores 0 (outputs nodetype) ++ [RetVoid])]).
Proof.
  intros Hdecl Hv Hd Houts Hduals Hnon.
  unfold DualCompiler.define_dual_function_wrapper.
  rewrite Hdecl, (llvm_find_external_function_Some _ _ Hv),
    (llvm_find_external_function_None _ _ Hd).
  unfold DualCompiler.collect_call_args.
  destruct (collect_inputs_spec (inputs nodetype)
              (fold_left collect_output (outputs nodetype)
                 (mk_call_args 0 [] [] []))) as (sx & sy & -> & ->).
  destruct (collect_outputs_spec (outputs nodetype)
              (mk_call_args 0 [] [] [])) as [-> ->].
  cbn [call_args_dx call_args_dy arg_it]. rewrite Houts.
  pose proof (zero_derivatives_duals_first duals nonduals 0 [] []
                sx sy Hduals Hnon eq_refl) as Hz.
  cbn [length app] in Hz. cbn [app]. rewrite Hz.
  reflexivity.
Qed.

(** ** [define_get_derivative] *)

Variable data : Type.
Variable bvm_make_zero : TypeSpec -> data.
Variable call_external :
  string -> list (rtval data) -> gmap nat (rtval data)
  -> option (gmap nat (rtval data)).

Abbreviation run := (run data bvm_make_zero call_external).

Abbreviation upstream := (upstream bvm_type_has_dual_value data).
Abbreviation zeroed := (zeroed data bvm_make_zero).

(** C4. The function built for a get-derivative node first stores zero
    through [out_dx] and [out_dy], then dispatches on the index: for 0
    it stores the upstream dx through [out_val], for 1 the upstream
    dy, and for any other index it returns at once, without a store
    through [out_val]. *)
Theorem define_get_derivative_dispatch
    (mod_ : Module_) (nodetype : NodeType) (func : string)
    (input1 : NodeInput) (out_val out_dx out_dy : nat) (idx : Z)
    (in_val in_dx in_dy : rtval data) (mem : gmap nat (rtval data))
    (fuel : nat) :
  declare_node_function mod_ nodetype = Some func ->
  find_input nodetype 1 = Some input1 ->
  let typespec := input_typespec input1 in
  let args := [RPtr out_val; RPtr out_dx; RPtr out_dy; RInt idx;
               in_val; in_dx; in_dy] in
  let mem0 := zeroed typespec out_dx out_dy mem in
  exists f : Function,
    define_get_derivative mod_ nodetype = Built f
    /\ (idx = 0%Z -> forall d, upstream typespec mem0 in_dx = Some d ->
         run (3 + fuel) f args mem = Some (<[out_val := d]> mem0))
    /\ (idx = 1%Z -> forall d, upstream typespec mem0 in_dy = Some d ->
         run (3 + fuel) f args mem = Some (<[out_val := d]> mem0))
    /\ (idx <> 0%Z -> idx <> 1%Z ->
         run (2 + fuel) f args mem = Some mem0).
Proof.
  intros Hdecl Hin typespec args mem0.
  unfold DualCompiler.define_get_derivative. rewrite Hdecl, Hin.
  eexists. split; [reflexivity |].
  fold typespec. unfold DualCompiler.upstream.
  unfold mem0, DualCompiler.zeroed, LLVMIR.run.
  split; [| split].
  - intros -> d Hd.
    destruct (use_argument_pointer typespec false) eqn:Hptr.
    + destruct in_dx as [a | |]; try discriminate Hd.
      cbn. rewrite Hd. cbn. reflexivity.
    + injection Hd as <-. cbn. reflexivity.
  - intros -> d Hd.
    destruct (use_argument_pointer typespec false) eqn:Hptr.
    + destruct in_dy as [a | |]; try discriminate Hd.
      cbn. rewrite Hd. cbn. reflexivity.
    + injection Hd as <-. cbn. reflexivity.
  - intros H0 H1. apply Z.eqb_neq in H0, H1.
    cbn -[Z.eqb]. rewrite H0, H1. cbn. reflexivity.
Qed.

End Facts.

(** ** The compiler on concrete node types *)

(** C1, at a node type whose dual-carrying output follows one that is
    not.  [INT_TO_RANDOM] has the outputs [irandom : INT] and
    [frandom : FLOAT] and no derivative function.  The wrapper's formal
    arguments are 0: irandom, 1..3: frandom with its dx and dy,
    4: seed, 5: value.  The zeroing loop reads the vectors at the
    output index 1, where they hold the input [seed]: zero is stored
    twice through argument 4 and never through arguments 2 and 3, the
    dx and dy of [frandom]. *)
Theorem dual_wrapper_INT_TO_RANDOM_zeroes_wrong_argument :
  define_dual_function_wrapper float_kinds_have_dual value_name deriv_name
    node_name {[ "V_INT_TO_RANDOM" ]} INT_TO_RANDOM
  = Built (mk_Function "INT_TO_RANDOM" [mk_BasicBlock "entry"
      [Call "V_INT_TO_RANDOM"
         [Argument 0; Argument 1; Argument 4; Argument 5];
       Store (ConstantZero TYPE_FLOAT) (Argument 4);
       Store (ConstantZero TYPE_FLOAT) (Argument 4);
       RetVoid]])
  /\ expected_zero_stores float_kinds_have_dual 0 (outputs INT_TO_RANDOM)
    = [Store (ConstantZero TYPE_FLOAT) (Argument 2);
       Store (ConstantZero TYPE_FLOAT) (Argument 3)].
Proof. split; vm_compute; reflexivity. Qed.

(** Run on actual arguments, that wrapper is undefined: [seed] is an
    integer passed by value, not a pointer. *)
Example dual_wrapper_INT_TO_RANDOM_run :
  forall f,
    define_dual_function_wrapper float_kinds_have_dual value_name
      deriv_name node_name {[ "V_INT_TO_RANDOM" ]} INT_TO_RANDOM = Built f ->
    run example_data example_zero example_external 1 f
      [RPtr 10; RPtr 11; RPtr 12; RPtr 13; RInt 42; RInt 7]
      {[ 12 := RData [F32.one]; 13 := RData [F32.one] ]}
    = None.
Proof.
  intros f Hf.
  vm_compute in Hf. injection Hf as <-. vm_compute. reflexivity.
Qed.

(** With a single float output the zeroing loop hits the right
    arguments. *)
Example dual_wrapper_ADD_FLOAT_no_derivative :
  define_dual_function_wrapper float_kinds_have_dual value_name deriv_name
    node_name {[ "V_ADD_FLOAT" ]} ADD_FLOAT
  = Built (mk_Function "ADD_FLOAT" [mk_BasicBlock "entry"
      [Call "V_ADD_FLOAT" [Argument 0; Argument 3; Argument 6];
       Store (ConstantZero TYPE_FLOAT) (Argument 1);
       Store (ConstantZero TYPE_FLOAT) (Argument 2);
       RetVoid]]).
Proof. vm_compute. reflexivity. Qed.

Example dual_wrapper_ADD_FLOAT_derivative :
  define_dual_function_wrapper float_kinds_have_dual value_name deriv_name
    node_name {[ "V_ADD_FLOAT"; "D_ADD_FLOAT" ]} ADD_FLOAT
  = Built (mk_Function "ADD_FLOAT" [mk_BasicBlock "entry"
      [Call "V_ADD_FLOAT" [Argument 0; Argument 3; Argument 6];
       Call "D_ADD_FLOAT"
         [Argument 1; Argument 3; Argument 4; Argument 6; Argument 7];
       Call "D_ADD_FLOAT"
         [Argument 2; Argument 3; Argument 5; Argument 6; Argument 8];
       RetVoid]]).
Proof. vm_compute. reflexivity. Qed.

(** The get-derivative function of [GET_DERIVATIVE_FLOAT], called with
    index 0: zero goes to cells 11 and 12, the upstream dx to cell
    10. *)
Lemma define_get_derivative_dispatch_run :
  exists f : Function,
    define_get_derivative float_kinds_have_dual node_name ∅
      GET_DERIVATIVE_FLOAT = Built f
    /\ run example_data example_zero example_external 3 f
         [RPtr 10; RPtr 11; RPtr 12; RInt 0; RData [F32.one];
          RData [F32.of_Z 2]; RData [F32.of_Z 3]] ∅
       = Some (<[10 := RData [F32.of_Z 2]]>
                 (<[12 := RData [F32.zero]]>
                    (<[11 := RData [F32.zero]]> ∅))).
Proof.
  destruct (define_get_derivative_dispatch float_kinds_have_dual node_name
              example_data example_zero example_external
              ∅ GET_DERIVATIVE_FLOAT "GET_DERIVATIVE_FLOAT"
              (mk_NodeInput "value" TYPE_FLOAT INPUT_EXPRESSION)
              10 11 12 0%Z (RData [F32.one]) (RData [F32.of_Z 2])
              (RData [F32.of_Z 3]) ∅ 0 eq_refl eq_refl)
    as (f & Hf & H0 & _).
  exists f. split; [exact Hf |].
  apply (H0 eq_refl). reflexivity.
Defined.

End DualCompilerFacts.

(* ===================================================================== *)
(** * Facts about the texture expression cache *)
(* ===================================================================== *)

Module TexCacheFacts.

Import TexCache.

Section Facts.

Variable BVM_gen_texture_expression :
  nat -> Tex -> bNodeTree -> BVMExpression.

Abbreviation acquire :=
  (BVM_texture_cache_acquire BVM_gen_texture_expression).
Abbreviation thread_step := (thread_step BVM_gen_texture_expression).
Abbreviation step := (step BVM_gen_texture_expression).
Abbreviation run_schedule := (run_schedule BVM_gen_texture_expression).
Abbreviation invariant := (invariant BVM_gen_texture_expression).
Abbreviation thread_ok := (thread_ok BVM_gen_texture_expression).

(** ** Sequential calls *)

Lemma acquire_present (tex : Tex) (s : State) (e : BVMExpression) :
  bvm_tex_cache s !! tex_ptr tex = Some e -> acquire tex s = (e, s).
Proof.
  intros H. unfold BVM_texture_cache_acquire. rewrite H. reflexivity.
Qed.

(** [acquire] changes the state only on a miss. *)
Lemma acquire_changes_only_absent (tex : Tex) (s : State) :
  snd (acquire tex s) <> s -> bvm_tex_cache s !! tex_ptr tex = None.
Proof.
  unfold BVM_texture_cache_acquire.
  destruct (bvm_tex_cache s !! tex_ptr tex); [| reflexivity].
  cbn. intros H. contradiction H. reflexivity.
Qed.

(** Once [acquire] has run, running it again changes nothing and
    returns the same expression. *)
Lemma acquire_idempotent (tex : Tex) (s : State) :
  acquire tex (snd (acquire tex s))
  = (fst (acquire tex s), snd (acquire tex s)).
Proof.
  unfold BVM_texture_cache_acquire at 2 3 4.
  destruct (bvm_tex_cache s !! tex_ptr tex) as [e |] eqn:Hs.
  - cbn. apply acquire_present, Hs.
  - destruct (use_nodes tex) eqn:Hu, (nodetree tex) as [tree |] eqn:Ht;
      cbn; try (unfold BVM_texture_cache_acquire; rewrite Hs, Hu, ?Ht;
                reflexivity).
    apply acquire_present. cbn. apply lookup_insert_eq.
Qed.

(** C2. When the key is present, [acquire] returns the stored
    expression and leaves the cache and the compilation counter as
    they are; in particular a second [acquire] right after a first
    returns the first one's expression and changes nothing; and
    whenever [acquire] compiles or changes the cache, the key was
    absent. *)
Theorem acquire_hit_no_recompile (tex : Tex) (s : State) :
  (forall e, bvm_tex_cache s !! tex_ptr tex = Some e ->
             acquire tex s = (e, s))
  /\ acquire tex (snd (acquire tex s))
     = (fst (acquire tex s), snd (acquire tex s))
  /\ (compilations (snd (acquire tex s)) <> compilations s
      \/ bvm_tex_cache (snd (acquire tex s)) <> bvm_tex_cache s ->
      bvm_tex_cache s !! tex_ptr tex = None).
Proof.
  split; [| split].
  - intros e. apply acquire_present.
  - apply acquire_idempotent.
  - intros H. apply acquire_changes_only_absent.
    intros Heq. rewrite Heq in H. destruct H as [H | H]; apply H;
      reflexivity.
Qed.

(** C7. When the key is absent and the texture supplies no node graph
    ([use_nodes] unset or no node tree), [acquire] returns the null
    handle, compiles nothing and leaves the cache as it is. *)
Theorem acquire_without_nodes (tex : Tex) (s : State) :
  bvm_tex_cache s !! tex_ptr tex = None ->
  use_nodes tex = false \/ nodetree tex = None ->
  acquire tex s = (NULL, s).
Proof.
  intros Hs Hn. unfold BVM_texture_cache_acquire. rewrite Hs.
  destruct Hn as [-> | ->]; [reflexivity |].
  destruct (use_nodes tex); reflexivity.
Qed.

(** After [invalidate] the key is absent, so the next [acquire] of a
    texture with a node graph compiles exactly once more. *)
Lemma invalidate_absent (tex : Tex) (s : State) :
  bvm_tex_cache (BVM_texture_cache_invalidate tex s) !! tex_ptr tex = None.
Proof.
  unfold BVM_texture_cache_invalidate.
  destruct (bvm_tex_cache s !! tex_ptr tex) eqn:Hs; cbn.
  - apply lookup_delete_eq.
  - exact Hs.
Qed.

Lemma invalidate_then_acquire (tex : Tex) (s : State) (tree : bNodeTree) :
  use_nodes tex = true -> nodetree tex = Some tree ->
  compilations (snd (acquire tex (BVM_texture_cache_invalidate tex s)))
  = S (compilations s).
Proof.
  intros Hu Hn. unfold BVM_texture_cache_acquire.
  rewrite invalidate_absent, Hu, Hn. cbn.
  unfold BVM_texture_cache_invalidate.
  destruct (bvm_tex_cache s !! tex_ptr tex); reflexivity.
Qed.

(** ** Concurrent calls *)

Lemma initial_invariant (tex : Tex) (s0 : State) (n : nat) :
  invariant tex s0 (initial n s0).
Proof.
  constructor; cbn.
  - intros i p Hp. apply lookup_replicate in Hp as [-> _]. discriminate.
  - intros i p Hp. apply lookup_replicate in Hp as [-> _]. exact I.
  - left. reflexivity.
Qed.

(** While a thread is inside the function body, every other thread is
    before the lock or has returned. *)
Lemma others_outside (tex : Tex) (s0 : State) (sys : System)
    (t i : nat) (p q : pc) :
  invariant tex s0 sys ->
  threads sys !! t = Some p -> in_critical_section p = true ->
  threads sys !! i = Some q -> i <> t ->
  in_critical_section q = false.
Proof.
  intros Hinv Hp Hcp Hq Hne.
  destruct (in_critical_section q) eqn:Hcq; [| reflexivity].
  pose proof (inv_mutex _ _ _ _ Hinv _ _ Hp Hcp) as H1.
  pose proof (inv_mutex _ _ _ _ Hinv _ _ Hq Hcq) as H2.
  congruence.
Qed.

(** What [acquire] returns on a state fixes what it returns on the
    state it leaves. *)
Lemma acquire_stable (tex : Tex) (s0 st : State) :
  st = s0 \/ st = snd (acquire tex s0) ->
  acquire tex st = (fst (acquire tex s0), snd (acquire tex s0)).
Proof.
  intros [-> | ->].
  - destruct (acquire tex s0); reflexivity.
  - apply acquire_idempotent.
Qed.

Ltac split_thread H :=
  let Hne := fresh "Hne" in
  apply list_lookup_insert_Some in H as [(<- & <- & _) | (Hne & H)];
  [| apply not_eq_sym in Hne].

Lemma step_invariant (tex : Tex) (s0 : State) (t : nat)
    (sys sys' : System) :
  invariant tex s0 sys -> step tex t sys = Some sys' ->
  invariant tex s0 sys'.
Proof.
  intros Hinv Hstep. unfold TexCache.step in Hstep.
  destruct (threads sys !! t) as [p |] eqn:Hp; [| discriminate].
  cbn in Hstep.
  destruct (thread_step t tex (shared sys) p) as [[sh' p'] |] eqn:Hts;
    [| discriminate].
  cbn in Hstep. injection Hstep as <-.
  pose proof (others_outside tex s0 sys t) as Hout.
  specialize (fun i q => Hout i p q Hinv Hp).
  destruct Hinv as [Hm Ht Hs].
  pose proof (Hm _ _ Hp) as Hmt. pose proof (Ht _ _ Hp) as Htt.
  destruct sys as [[st mx] ths]. cbn in *.
  destruct p; cbn in Hts, Hmt, Htt.
  - (* PLock *)
    destruct mx; [discriminate |]. injection Hts as <- <-.
    constructor; cbn.
    + intros i p Hi Hc. split_thread Hi; [reflexivity |].
      discriminate (Hm _ _ Hi Hc).
    + intros i p Hi. split_thread Hi; [exact I | exact (Ht _ _ Hi)].
    + destruct Hs as [Hs | [Hs | (i & e & Hi)]]; auto.
      right; right. exists i, e.
      rewrite list_lookup_insert_ne; [exact Hi |].
      intros ->. congruence.
  - (* PFind *)
    specialize (Hmt eq_refl). subst mx.
    assert (Hst : st = s0 \/ st = snd (acquire tex s0)).
    { destruct Hs as [Hs | [Hs | (i & e & Hi)]]; auto.
      pose proof (Hm _ _ Hi eq_refl) as Hmi.
      injection Hmi as ->. congruence. }
    pose proof (acquire_stable tex s0 st Hst) as Hacq.
    assert (Hok : thread_ok tex s0 st p' /\ sh' = mk_Shared st (Some t)).
    { unfold BVM_texture_cache_acquire in Hacq at 1.
      destruct (bvm_tex_cache st !! tex_ptr tex) as [e |] eqn:Hl.
      - injection Hts as <- <-. injection Hacq as Hr Hs1.
        split; [split; assumption | reflexivity].
      - destruct (use_nodes tex) eqn:Hu;
          [destruct (nodetree tex) as [tree |] eqn:Hn |];
          injection Hts as <- <-; injection Hacq as Hr Hs1;
          try (split; [split; assumption | reflexivity]).
        split; [| reflexivity]. cbn.
        destruct Hst as [-> | Hst]; [auto |].
        rewrite <- Hs1 in Hst. apply (f_equal compilations) in Hst.
        cbn in Hst. lia. }
    destruct Hok as [Hok ->].
    constructor; cbn.
    + intros i p Hi Hc. split_thread Hi; [reflexivity |].
      apply (Hm _ _ Hi Hc).
    + intros i p Hi. split_thread Hi; [exact Hok | exact (Ht _ _ Hi)].
    + destruct Hst; auto.
  - (* PGen *)
    specialize (Hmt eq_refl). subst mx.
    destruct Htt as (-> & Hl & Hu & Hn). injection Hts as <- <-.
    assert (Hacq : acquire tex s0
                   = (BVM_gen_texture_expression (compilations s0) tex tree,
                      mk_State (<[tex_ptr tex :=
                                  BVM_gen_texture_expression
                                    (compilations s0) tex tree]>
                                  (bvm_tex_cache s0))
                               (S (compilations s0)))).
    { unfold BVM_texture_cache_acquire. rewrite Hl, Hu, Hn. reflexivity. }
    constructor; cbn.
    + intros i p Hi Hc. split_thread Hi; [reflexivity |].
      apply (Hm _ _ Hi Hc).
    + intros i p Hi. split_thread Hi.
      * unfold TexCache.thread_ok. rewrite Hacq. cbn. auto.
      * pose proof (Hout i p eq_refl Hi Hne) as Hq.
        pose proof (Ht _ _ Hi) as Hti.
        destruct p; try discriminate Hq; [exact I |].
        exfalso. unfold TexCache.thread_ok in Hti. rewrite Hacq in Hti.
        cbn in Hti. destruct Hti as [_ Hti].
        apply (f_equal compilations) in Hti. cbn in Hti. lia.
    + right; right. eexists t, _.
      apply list_lookup_insert_eq. eapply lookup_lt_Some, Hp.
  - (* PInsert *)
    specialize (Hmt eq_refl). subst mx.
    destruct Htt as (-> & -> & Hs1). injection Hts as <- <-. cbn.
    constructor; cbn; rewrite <- ?Hs1.
    + intros i p Hi Hc. split_thread Hi; [reflexivity |].
      apply (Hm _ _ Hi Hc).
    + intros i p Hi. split_thread Hi.
      * split; reflexivity.
      * pose proof (Hout i p eq_refl Hi Hne) as Hq.
        pose proof (Ht _ _ Hi) as Hti.
        destruct p; try discriminate Hq; [exact I |].
        cbn in Hti |- *. destruct Hti as [-> _]. split; reflexivity.
    + right; left. reflexivity.
  - (* PUnlock *)
    specialize (Hmt eq_refl). subst mx. injection Hts as <- <-.
    constructor; cbn.
    + intros i p Hi Hc. split_thread Hi; [discriminate |].
      rewrite (Hout i p eq_refl Hi Hne) in Hc. discriminate.
    + intros i p Hi. split_thread Hi; [exact Htt | exact (Ht _ _ Hi)].
    + destruct Htt as [_ ->]. right; left. reflexivity.
  - discriminate.
Qed.

Lemma run_schedule_invariant (tex : Tex) (s0 : State)
    (sched : list nat) :
  forall sys : System,
    invariant tex s0 sys -> invariant tex s0 (run_schedule tex sched sys).
Proof.
  induction sched as [| t sched IH]; intros sys Hinv; cbn.
  - exact Hinv.
  - apply IH. destruct (step tex t sys) as [sys' |] eqn:Hstep; cbn.
    + eapply step_invariant; eassumption.
    + exact Hinv.
Qed.

(** Under the invariant at most one compilation has been added. *)
Lemma invariant_compilations (tex : Tex) (s0 : State) (sys : System) :
  invariant tex s0 sys ->
  compilations (sh_state (shared sys)) <= S (compilations s0).
Proof.
  intros [Hm Ht Hs].
  assert (H1 : compilations (snd (acquire tex s0)) <= S (compilations s0)).
  { unfold BVM_texture_cache_acquire.
    destruct (bvm_tex_cache s0 !! tex_ptr tex); cbn; [lia |].
    destruct (use_nodes tex), (nodetree tex); cbn; lia. }
  destruct Hs as [-> | [-> | (i & e & Hi)]]; [lia | exact H1 |].
  destruct (Ht _ _ Hi) as (_ & -> & _). cbn. lia.
Qed.

(** A thread that runs alone does what the sequential function
    does. *)
Lemma single_thread_acquire (tex : Tex) (s0 : State) :
  run_schedule tex [0; 0; 0; 0; 0] (initial 1 s0)
  = mk_System (mk_Shared (snd (acquire tex s0)) None)
              [PDone (fst (acquire tex s0))].
Proof.
  unfold BVM_texture_cache_acquire.
  destruct s0 as [cache n]. cbn.
  unfold TexCache.step. cbn.
  destruct (cache !! tex_ptr tex) as [e |] eqn:Hl; cbn.
  - reflexivity.
  - destruct (use_nodes tex); [destruct (nodetree tex) |]; reflexivity.
Qed.

(** C5, as the code has it.  The mutex is taken before the lookup and
    held until the function returns: a thread that is at the lookup,
    compiling, inserting or about to return holds the mutex, so no two
    threads are there at once.  Whatever the schedule, concurrent
    [acquire]s of one texture compile at most once, and each returns
    what a single sequential [acquire] returns, leaving the state that
    one leaves. *)
Theorem concurrent_acquire_serialized
    (tex : Tex) (s0 : State) (n : nat) (sched : list nat) :
  let sys := run_schedule tex sched (initial n s0) in
  (forall i p, threads sys !! i = Some p ->
               in_critical_section p = true ->
               bvm_tex_mutex (shared sys) = Some i)
  /\ compilations (sh_state (shared sys)) <= S (compilations s0)
  /\ (forall i r, threads sys !! i = Some (PDone r) ->
                  r = fst (acquire tex s0)
                  /\ sh_state (shared sys) = snd (acquire tex s0)).
Proof.
  intros sys.
  pose proof (run_schedule_invariant tex s0 sched _
                (initial_invariant tex s0 n)) as Hinv.
  fold sys in Hinv. split; [| split].
  - apply (inv_mutex _ _ _ _ Hinv).
  - apply (invariant_compilations _ _ _ Hinv).
  - intros i r Hi. apply (inv_threads _ _ _ _ Hinv _ _ Hi).
Qed.

End Facts.

(** [acquire(texA)] twice from the empty cache: one compilation, the
    same expression both times. *)
Lemma acquire_twice_run :
  let first := BVM_texture_cache_acquire example_gen texA empty_state in
  fst first = Some 1%positive
  /\ compilations (snd first) = 1
  /\ BVM_texture_cache_acquire example_gen texA (snd first)
     = (Some 1%positive, snd first).
Proof.
  split; [reflexivity |]. split; [reflexivity |].
  apply (proj1 (acquire_hit_no_recompile example_gen texA
                  (snd (BVM_texture_cache_acquire example_gen texA
                          empty_state)))).
  reflexivity.
Defined.

(** A texture without a node graph, acquired from the empty cache. *)
Lemma acquire_without_nodes_run :
  BVM_texture_cache_acquire example_gen tex_plain empty_state
  = (NULL, empty_state).
Proof.
  apply (acquire_without_nodes example_gen tex_plain empty_state).
  - reflexivity.
  - left. reflexivity.
Defined.


(** Two threads acquire [texA] from the empty cache, interleaved as far
    as the mutex allows: thread 0 locks and finds the key absent; thread
    1 is then blocked at the lock while thread 0 compiles.  In the end
    one compilation was made and both hold expression 1. *)
Lemma concurrent_acquire_serialized_run :
  let sys := run_schedule example_gen texA
               [0; 1; 0; 1; 0; 1; 0; 1; 0; 1; 1; 1] (initial 2 empty_state) in
  threads sys = [PDone (Some 1%positive); PDone (Some 1%positive)]
  /\ compilations (sh_state (shared sys)) <= 1
  /\ (Some 1%positive = fst (BVM_texture_cache_acquire example_gen texA
                               empty_state)
      /\ sh_state (shared sys)
         = snd (BVM_texture_cache_acquire example_gen texA empty_state)).
Proof.
  split; [reflexivity |].
  pose proof (concurrent_acquire_serialized example_gen texA empty_state 2
                [0; 1; 0; 1; 0; 1; 0; 1; 0; 1; 1; 1]) as (_ & Hc & Hd).
  split; [exact Hc |].
  apply (Hd 0). reflexivity.
Defined.

(** The claim as stated fails: with the lock taken on entry, a thread
    that is compiling holds the mutex and the other one is blocked, and
    no schedule of two [acquire]s of a new key compiles twice. *)
Lemma concurrent_acquire_never_compiles_twice :
  (let sys := run_schedule example_gen texA [0; 0] (initial 2 empty_state) in
   threads sys = [PGen 3%positive; PLock]
   /\ bvm_tex_mutex (shared sys) = Some 0
   /\ step example_gen texA 1 sys = None)
  /\ ~ (exists sched : list nat,
         2 <= compilations
                (sh_state (shared (run_schedule example_gen texA sched
                                     (initial 2 empty_state))))).
Proof.
  split.
  - repeat split; reflexivity.
  - intros (sched & H).
    pose proof (invariant_compilations example_gen texA empty_state _
                  (run_schedule_invariant example_gen texA empty_state
                     sched _ (initial_invariant example_gen texA
                                empty_state 2))) as Hc.
    cbn in Hc. lia.
Qed.

End TexCacheFacts.

(* ===================================================================== *)
(** * Facts about the further operations of [bvm_eval_math.h] *)
(* ===================================================================== *)

Module EvalMathMoreFacts.

Import F32 EvalMath EvalMathMore.

(** ** binary32 arithmetic laws *)

Lemma f32_mul_comm (x y : float) : mul x y = mul y x.
Proof.
  unfold mul.
  destruct x as [sx | sx | | sx mx ex], y as [sy | sy | | sy my ey]; cbn;
    rewrite ?(xorb_comm sx sy); try reflexivity.
  rewrite (Pos.mul_comm mx my), (Z.add_comm ex ey). reflexivity.
Qed.

Lemma f32_add_comm (x y : float) : add x y = add y x.
Proof.
  unfold add.
  destruct x as [[|] | [|] | | sx mx ex], y as [[|] | [|] | | sy my ey];
    cbn; try reflexivity.
  rewrite (Z.min_comm ex ey), Z.add_comm. reflexivity.
Qed.

Lemma f32_sub_diag (x : float) : is_finite x = true -> sub x x = zero.
Proof.
  unfold sub. destruct x as [[|] | [|] | | sx mx ex]; cbn;
    try discriminate; try reflexivity.
  intros _. rewrite Z.sub_diag. reflexivity.
Qed.

Lemma compare_antisym (x y : float) :
  SFcompare x y = Some Lt -> SFcompare y x = Some Gt.
Proof.
  destruct x as [sx | [|] | | [|] mx ex], y as [sy | [|] | | [|] my ey];
    cbn; try discriminate; try reflexivity.
  - rewrite (Z.compare_antisym ey ex).
    destruct (ey ?= ex)%Z eqn:He; cbn; try discriminate; try reflexivity.
    change (Pos.compare_cont Eq mx my) with (mx ?= my)%positive.
    change (Pos.compare_cont Eq my mx) with (my ?= mx)%positive.
    rewrite (Pos.compare_antisym my mx).
    destruct (my ?= mx)%positive; cbn; try discriminate; reflexivity.
  - rewrite (Z.compare_antisym ey ex).
    destruct (ey ?= ex)%Z eqn:He; cbn; try discriminate; try reflexivity.
    change (Pos.compare_cont Eq mx my) with (mx ?= my)%positive.
    change (Pos.compare_cont Eq my mx) with (my ?= mx)%positive.
    rewrite (Pos.compare_antisym my mx).
    destruct (my ?= mx)%positive; cbn; try discriminate; reflexivity.
Qed.

Lemma ltb_antisym (a b : float) : ltb a b = true -> ltb b a = false.
Proof.
  unfold ltb, SFltb. destruct (SFcompare a b) as [[| |] |] eqn:H;
    try discriminate.
  intros _. rewrite (compare_antisym _ _ H). reflexivity.
Qed.

Lemma ltb_nan (a b : float) :
  is_nan a = true \/ is_nan b = true -> ltb a b = false.
Proof.
  intros [H | H]; destruct a, b; try discriminate H; reflexivity.
Qed.

(** [a >= 0.0f] fails exactly for a NaN and for a negative number. *)
Lemma geb_zero_false (a : float) :
  geb a zero = false <-> is_nan a = true \/ ltb a zero = true.
Proof.
  destruct a as [[|] | [|] | | [|] m e]; cbn; intuition congruence.
Qed.

(** A quotient by a zero is a NaN or an infinity. *)
Lemma div_zero_not_finite (x y : float) :
  eqb y zero = true -> is_finite (div x y) = false.
Proof.
  destruct y as [sy | [|] | | [|] my ey]; cbn; try discriminate; intros _;
    destruct x as [sx | sx | | sx mx ex]; reflexivity.
Qed.


Section Facts.

Variable Stack : Type.
Variable stack_load_float : Stack -> StackIndex -> float.
Variable stack_load_float3 : Stack -> StackIndex -> float3.
Variable stack_store_float : Stack -> StackIndex -> float -> Stack.
Variable stack_store_float3 : Stack -> StackIndex -> float3 -> Stack.
Variable powf : float -> float -> float.
Variable logf : float -> float.

Abbreviation eval_op_add_float :=
  (eval_op_add_float Stack stack_load_float stack_store_float).
Abbreviation eval_op_mul_float :=
  (eval_op_mul_float Stack stack_load_float stack_store_float).
Abbreviation eval_op_power :=
  (eval_op_power Stack stack_load_float stack_store_float powf).
Abbreviation eval_op_logarithm :=
  (eval_op_logarithm Stack stack_load_float stack_store_float logf).
Abbreviation eval_op_less_than :=
  (eval_op_less_than Stack stack_load_float stack_store_float).
Abbreviation eval_op_greater_than :=
  (eval_op_greater_than Stack stack_load_float stack_store_float).
Abbreviation eval_op_add_float3 :=
  (eval_op_add_float3 Stack stack_load_float3 stack_store_float3).
Abbreviation eval_op_mul_float3 :=
  (eval_op_mul_float3 Stack stack_load_float3 stack_store_float3).
Abbreviation eval_op_dot_float3 :=
  (eval_op_dot_float3 Stack stack_load_float3 stack_store_float).
Abbreviation eval_op_cross_float3 :=
  (eval_op_cross_float3 Stack stack_load_float3 stack_store_float3).

(** X1. [POWER] swallows a bad base: for a base that is a NaN or negative
    it stores 0.0 and does not call [powf]; for every other base, -0.0
    included, it calls [powf] once on the two operands and stores what
    that returns. *)
Theorem eval_op_power_base_guard
    (stack : Stack) (offset_a offset_b offset_r : StackIndex) :
  let a := stack_load_float stack offset_a in
  let b := stack_load_float stack offset_b in
  (is_nan a = true \/ ltb a zero = true ->
   eval_op_power stack offset_a offset_b offset_r
   = wret (stack_store_float stack offset_r zero))
  /\ (is_nan a = false -> ltb a zero = false ->
      eval_op_power stack offset_a offset_b offset_r
      = ([Call_powf a b], stack_store_float stack offset_r (powf a b))).
Proof.
  intros a b. unfold EvalMathMore.eval_op_power. fold a b. split.
  - intros H. apply geb_zero_false in H. rewrite H. reflexivity.
  - intros Hn Hl. destruct (geb a zero) eqn:Hg; [reflexivity |].
    apply geb_zero_false in Hg. destruct Hg; congruence.
Qed.

(** X2. [LOGARITHM] tests the signs of its operands only: for [a >= 0]
    and [b >= 0] it divides [logf(a)] by [logf(b)] whatever the divisor
    is, and when [logf(b)] is a zero the value it stores is a NaN or an
    infinity. *)
Theorem eval_op_logarithm_unguarded_divisor
    (stack : Stack) (offset_a offset_b offset_r : StackIndex) :
  let a := stack_load_float stack offset_a in
  let b := stack_load_float stack offset_b in
  geb a zero = true -> geb b zero = true ->
  eval_op_logarithm stack offset_a offset_b offset_r
  = ([Call_logf a; Call_logf b; Op_fdiv (logf a) (logf b)],
     stack_store_float stack offset_r (div (logf a) (logf b)))
  /\ (eqb (logf b) zero = true ->
      is_finite (div (logf a) (logf b)) = false).
Proof.
  intros a b Ha Hb. unfold EvalMathMore.eval_op_logarithm. fold a b.
  rewrite Ha, Hb. split; [reflexivity |].
  apply div_zero_not_finite.
Qed.

(** X3. [LESS_THAN] and [GREATER_THAN] store 1.0 or 0.0, never 1.0 both
    on the same operands, and 0.0 both when an operand is a NaN. *)
Theorem less_than_greater_than_exclusive
    (stack : Stack) (offset_a offset_b offset_r : StackIndex) :
  let a := stack_load_float stack offset_a in
  let b := stack_load_float stack offset_b in
  exists lt gt : float,
    eval_op_less_than stack offset_a offset_b offset_r
    = stack_store_float stack offset_r lt
    /\ eval_op_greater_than stack offset_a offset_b offset_r
       = stack_store_float stack offset_r gt
    /\ (lt = one \/ lt = zero) /\ (gt = one \/ gt = zero)
    /\ ~ (lt = one /\ gt = one)
    /\ (is_nan a = true \/ is_nan b = true -> lt = zero /\ gt = zero).
Proof.
  intros a b.
  exists (if ltb a b then one else zero), (if gtb a b then one else zero).
  split; [reflexivity |]. split; [reflexivity |].
  split; [destruct (ltb a b); auto |].
  split; [destruct (gtb a b); auto |].
  split.
  - unfold gtb. fold (ltb b a). intros [H1 H2].
    destruct (ltb a b) eqn:Hab; [| discriminate H1].
    rewrite (ltb_antisym _ _ Hab) in H2. discriminate H2.
  - intros H. unfold gtb. fold (ltb b a).
    assert (H' : is_nan b = true \/ is_nan a = true)
      by (destruct H; [right | left]; assumption).
    rewrite (ltb_nan a b H), (ltb_nan b a H'). split; reflexivity.
Qed.


(** X5. The cross product of a vector with itself is the zero vector,
    all three components +0.0, as long as the pairwise products of its
    components do not overflow (are neither infinite nor NaN). *)
Theorem eval_op_cross_float3_self
    (stack : Stack) (offset offset_r : StackIndex) :
  let a := stack_load_float3 stack offset in
  is_finite (mul (f3y a) (f3z a)) = true ->
  is_finite (mul (f3z a) (f3x a)) = true ->
  is_finite (mul (f3x a) (f3y a)) = true ->
  eval_op_cross_float3 stack offset offset offset_r
  = stack_store_float3 stack offset_r (mk_float3 zero zero zero).
Proof.
  intros a Hyz Hzx Hxy. unfold EvalMathMore.eval_op_cross_float3. fold a.
  rewrite (f32_mul_comm (f3z a) (f3y a)), (f32_mul_comm (f3x a) (f3z a)),
    (f32_mul_comm (f3y a) (f3x a)).
  rewrite !f32_sub_diag by assumption. reflexivity.
Qed.

End Facts.

(** ** On the concrete stack *)

(** [POWER] on (-2, 3) stores 0.0 without calling [powf]. *)
Lemma eval_op_power_negative_base_run :
  eval_op_power ArrayStack array_load_float array_store_float
    (fun a _ => a) [of_Z (-2); of_Z 3; one] 0%Z 1%Z 2%Z
  = wret [of_Z (-2); of_Z 3; zero].
Proof.
  apply (proj1 (eval_op_power_base_guard ArrayStack array_load_float
                  array_store_float (fun a _ => a)
                  [of_Z (-2); of_Z 3; one] 0%Z 1%Z 2%Z)).
  right. reflexivity.
Defined.

(** [LOGARITHM] on (1, 1): 0/0, a NaN is stored. *)
Lemma eval_op_logarithm_base_one_run :
  eval_op_logarithm ArrayStack array_load_float array_store_float
    example_logf [one; one; zero] 0%Z 1%Z 2%Z
  = ([Call_logf one; Call_logf one; Op_fdiv zero zero],
     [one; one; S754_nan])
  /\ is_finite (div (example_logf one) (example_logf one)) = false.
Proof.
  destruct (eval_op_logarithm_unguarded_divisor ArrayStack array_load_float
              array_store_float example_logf [one; one; zero] 0%Z 1%Z 2%Z
              eq_refl eq_refl) as [Hrun Hnf].
  split; [exact Hrun | apply Hnf; reflexivity].
Defined.

(** The cross product of (1, 2, 3) with itself. *)
Lemma eval_op_cross_float3_self_run :
  eval_op_cross_float3 ArrayStack array_load_float3 array_store_float3
    [of_Z 1; of_Z 2; of_Z 3; one; one; one] 0%Z 0%Z 3%Z
  = [of_Z 1; of_Z 2; of_Z 3; zero; zero; zero].
Proof.
  apply (eval_op_cross_float3_self ArrayStack array_load_float3
           array_store_float3 [of_Z 1; of_Z 2; of_Z 3; one; one; one]
           0%Z 3%Z); reflexivity.
Defined.

(** Comparing with a NaN. *)
Lemma less_than_greater_than_nan_run :
  eval_op_less_than ArrayStack array_load_float array_store_float
    [S754_nan; one; one] 0%Z 1%Z 2%Z = [S754_nan; one; zero]
  /\ eval_op_greater_than ArrayStack array_load_float array_store_float
       [S754_nan; one; one] 0%Z 1%Z 2%Z = [S754_nan; one; zero].
Proof.
  destruct (less_than_greater_than_exclusive ArrayStack array_load_float
              array_store_float [S754_nan; one; one] 0%Z 1%Z 2%Z)
    as (lt & gt & Hlt & Hgt & _ & _ & _ & Hnan).
  destruct (Hnan (or_introl eq_refl)) as [-> ->].
  split; [exact Hlt | exact Hgt].
Defined.

End EvalMathMoreFacts.

(* ===================================================================== *)
(** * Facts about the compile context *)
(* ===================================================================== *)

Module CompileCtxFacts.

Import CompileCtx.

Lemma fill_obmap_snoc (obs : list ObjectPtr) :
  forall (i : Z) (obmap : ObjectPtrMap) (ob : ObjectPtr),
    fill_obmap i (obs ++ [ob]) obmap
    = <[ob := (i + Z.of_nat (length obs))%Z]> (fill_obmap i obs obmap).
Proof.
  induction obs as [| x obs IH]; intros i obmap ob; cbn [fill_obmap app length].
  - rewrite Z.add_0_r. reflexivity.
  - rewrite IH. f_equal. lia.
Qed.

(** The map built by the constructor holds, for each object, the index
    of its last occurrence in the vector. *)
Lemma CompileContext_lookup (obs : list ObjectPtr) :
  forall (ob : ObjectPtr) (z : Z),
    fill_obmap 0 obs ∅ !! ob = Some z <->
    exists k : nat,
      z = Z.of_nat k /\ obs !! k = Some ob
      /\ forall j, k < j -> obs !! j <> Some ob.
Proof.
  induction obs as [| x obs IH] using rev_ind; intros ob z.
  - cbn [fill_obmap]. rewrite lookup_empty. split; [discriminate |].
    intros (k & _ & Hk & _). discriminate Hk.
  - rewrite fill_obmap_snoc, Z.add_0_l.
    destruct (decide (x = ob)) as [-> | Hne].
    + rewrite lookup_insert_eq. split.
      * intros [= <-]. exists (length obs). split; [reflexivity |].
        split; [apply list_lookup_middle; reflexivity |].
        intros j Hj. rewrite lookup_ge_None_2; [discriminate |].
        rewrite length_app. cbn. lia.
      * intros (k & -> & Hk & Hlast).
        destruct (decide (k = length obs)) as [-> | Hk']; [reflexivity |].
        exfalso. apply (Hlast (length obs)).
        -- apply lookup_lt_Some in Hk. rewrite length_app in Hk. cbn in Hk.
           lia.
        -- apply list_lookup_middle. reflexivity.
    + rewrite lookup_insert_ne by exact Hne. rewrite IH. split.
      * intros (k & -> & Hk & Hlast). exists k. split; [reflexivity |].
        split; [rewrite lookup_app_l; [exact Hk |];
                eapply lookup_lt_Some, Hk |].
        intros j Hj Hj'. apply lookup_app_Some in Hj' as [Hj' | [_ Hj']].
        -- exact (Hlast j Hj Hj').
        -- apply list_lookup_singleton_Some in Hj' as [_ ->].
           contradiction Hne. reflexivity.
      * intros (k & -> & Hk & Hlast). exists k. split; [reflexivity |].
        apply lookup_app_Some in Hk as [Hk | [_ Hk]].
        -- split; [exact Hk |]. intros j Hj Hj'. apply (Hlast j Hj).
           rewrite lookup_app_l; [exact Hj' |]. eapply lookup_lt_Some, Hj'.
        -- apply list_lookup_singleton_Some in Hk as [_ ->].
           contradiction Hne. reflexivity.
Qed.

(** X6. [get_object_index] returns -1 exactly for an object that is not
    in the globals' vector. *)
Theorem get_object_index_missing (globals : EvalGlobals) (ob : ObjectPtr) :
  get_object_index (CompileContext globals) ob = (-1)%Z
  <-> ob ∉ objects globals.
Proof.
  unfold get_object_index, CompileContext.
  destruct (fill_obmap 0 (objects globals) ∅ !! ob) as [z |] eqn:Hl.
  - apply CompileContext_lookup in Hl as (k & -> & Hk & _). split.
    + lia.
    + intros Hnot. contradiction Hnot. eapply list_elem_of_lookup_2, Hk.
  - split; [| reflexivity]. intros _ Hin.
    apply list_elem_of_lookup_1 in Hin as [k Hk].
    (* take the last occurrence *)
    assert (Hex : exists k', objects globals !! k' = Some ob
                    /\ forall j, k' < j -> objects globals !! j <> Some ob).
    { clear Hl. revert k Hk.
      induction (objects globals) as [| x obs IH] using rev_ind;
        intros k Hk; [discriminate Hk |].
      destruct (decide (x = ob)) as [-> | Hne].
      - exists (length obs). split; [apply list_lookup_middle; reflexivity |].
        intros j Hj. rewrite lookup_ge_None_2; [discriminate |].
        rewrite length_app. cbn. lia.
      - apply lookup_app_Some in Hk as [Hk | [_ Hk]].
        + destruct (IH k Hk) as (k' & Hk' & Hlast). exists k'.
          split; [rewrite lookup_app_l; [exact Hk' |];
                  eapply lookup_lt_Some, Hk' |].
          intros j Hj Hj'. apply lookup_app_Some in Hj' as [Hj' | [_ Hj']].
          * exact (Hlast j Hj Hj').
          * apply list_lookup_singleton_Some in Hj' as [_ ->].
            contradiction Hne. reflexivity.
        + apply list_lookup_singleton_Some in Hk as [_ ->].
          contradiction Hne. reflexivity. }
    destruct Hex as (k' & Hk' & Hlast).
    assert (Hsome : fill_obmap 0 (objects globals) ∅ !! ob
                    = Some (Z.of_nat k')).
    { apply CompileContext_lookup. exists k'. auto. }
    congruence.
Qed.

(** X7. An index that [get_object_index] returns is a position of the
    object in the vector, the last one where it occurs. *)
Theorem get_object_index_found (globals : EvalGlobals) (ob : ObjectPtr) :
  get_object_index (CompileContext globals) ob <> (-1)%Z ->
  exists k : nat,
    get_object_index (CompileContext globals) ob = Z.of_nat k
    /\ objects globals !! k = Some ob
    /\ forall j, k < j -> objects globals !! j <> Some ob.
Proof.
  unfold get_object_index, CompileContext.
  destruct (fill_obmap 0 (objects globals) ∅ !! ob) as [z |] eqn:Hl.
  - intros _. apply CompileContext_lookup in Hl as (k & -> & Hk & Hlast).
    exists k. auto.
  - intros H. contradiction H. reflexivity.
Qed.

(** X8. After [BVM_globals_add_object(globals, ob)] a new compile
    context gives [ob] the index of the new last slot, also when [ob]
    was in the vector before, and gives every other object the index it
    had. *)
Theorem add_object_index (globals : EvalGlobals) (ob : ObjectPtr) :
  get_object_index (CompileContext (BVM_globals_add_object globals ob)) ob
  = Z.of_nat (length (objects globals))
  /\ forall ob', ob' <> ob ->
       get_object_index (CompileContext (BVM_globals_add_object globals ob))
         ob'
       = get_object_index (CompileContext globals) ob'.
Proof.
  unfold get_object_index, CompileContext, BVM_globals_add_object. cbn.
  rewrite fill_obmap_snoc, Z.add_0_l. split.
  - rewrite lookup_insert_eq. reflexivity.
  - intros ob' Hne. rewrite lookup_insert_ne by congruence. reflexivity.
Qed.

(** Objects 5, 8, 5: the index of 5 is 2, of 8 is 1, of 9 is -1. *)
Lemma get_object_index_run :
  exists k : nat,
    get_object_index (CompileContext (mk_EvalGlobals [5; 8; 5]%positive))
      5%positive = Z.of_nat k
    /\ [5; 8; 5]%positive !! k = Some 5%positive
    /\ forall j, k < j -> [5; 8; 5]%positive !! j <> Some 5%positive.
Proof.
  apply (get_object_index_found (mk_EvalGlobals [5; 8; 5]%positive)
           5%positive).
  vm_compute. discriminate.
Defined.

Lemma add_object_index_run :
  get_object_index
    (CompileContext
       (BVM_globals_add_object (mk_EvalGlobals [5; 8]%positive) 5%positive))
    5%positive = 2%Z
  /\ get_object_index
       (CompileContext
          (BVM_globals_add_object (mk_EvalGlobals [5; 8]%positive)
             5%positive))
       8%positive
     = get_object_index (CompileContext (mk_EvalGlobals [5; 8]%positive))
         8%positive.
Proof.
  destruct (add_object_index (mk_EvalGlobals [5; 8]%positive) 5%positive)
    as [H1 H2].
  split; [exact H1 | apply H2; discriminate].
Defined.

Lemma get_object_index_missing_run :
  get_object_index (CompileContext (mk_EvalGlobals [5; 8; 5]%positive))
    9%positive = (-1)%Z.
Proof.
  apply (proj2 (get_object_index_missing
                  (mk_EvalGlobals [5; 8; 5]%positive) 9%positive)).
  intros H. repeat (apply elem_of_cons in H as [H | H]; [discriminate H |]).
  inversion H.
Defined.

End CompileCtxFacts.

(* ===================================================================== *)
(** * Further facts about the texture expression cache *)
(* ===================================================================== *)

Module TexCacheMoreFacts.

Import TexCache TexCacheProgress TexCacheFacts.

Section Facts.

Variable BVM_gen_texture_expression :
  nat -> Tex -> bNodeTree -> BVMExpression.

Abbreviation acquire :=
  (BVM_texture_cache_acquire BVM_gen_texture_expression).
Abbreviation thread_step := (thread_step BVM_gen_texture_expression).
Abbreviation step := (step BVM_gen_texture_expression).
Abbreviation run_schedule := (run_schedule BVM_gen_texture_expression).
Abbreviation invariant := (invariant BVM_gen_texture_expression).

(** X9. A failed compilation is cached: when the key is absent, the
    texture has a node graph and [BVM_gen_texture_expression] returns
    null, [acquire] stores the null pointer under the key and returns
    it, and a further [acquire] returns null again without compiling. *)
Theorem acquire_caches_failure (tex : Tex) (s : State) (tree : bNodeTree) :
  bvm_tex_cache s !! tex_ptr tex = None ->
  use_nodes tex = true -> nodetree tex = Some tree ->
  BVM_gen_texture_expression (compilations s) tex tree = NULL ->
  let s1 := snd (acquire tex s) in
  fst (acquire tex s) = NULL
  /\ bvm_tex_cache s1 !! tex_ptr tex = Some NULL
  /\ compilations s1 = S (compilations s)
  /\ acquire tex s1 = (NULL, s1).
Proof.
  intros Hs Hu Hn Hgen s1.
  assert (Hacq : acquire tex s
                 = (NULL, mk_State (<[tex_ptr tex := NULL]> (bvm_tex_cache s))
                                   (S (compilations s)))).
  { unfold BVM_texture_cache_acquire. rewrite Hs, Hu, Hn, Hgen.
    reflexivity. }
  subst s1. rewrite Hacq. cbn.
  split; [reflexivity |]. split; [apply lookup_insert_eq |].
  split; [reflexivity |].
  unfold BVM_texture_cache_acquire. cbn. rewrite lookup_insert_eq.
  reflexivity.
Qed.

(** X10. [invalidate] followed by [acquire] of a texture with a node
    graph compiles exactly once, whatever the cache held, and caches and
    returns the new expression; a second [invalidate] in a row changes
    nothing. *)
Theorem invalidate_acquire_recompiles
    (tex : Tex) (s : State) (tree : bNodeTree) :
  use_nodes tex = true -> nodetree tex = Some tree ->
  let s' := BVM_texture_cache_invalidate tex s in
  let expr := BVM_gen_texture_expression (compilations s) tex tree in
  BVM_texture_cache_invalidate tex s' = s'
  /\ fst (acquire tex s') = expr
  /\ bvm_tex_cache (snd (acquire tex s')) !! tex_ptr tex = Some expr
  /\ compilations (snd (acquire tex s')) = S (compilations s).
Proof.
  intros Hu Hn s' expr.
  assert (Habs : bvm_tex_cache s' !! tex_ptr tex = None)
    by apply invalidate_absent.
  assert (Hc : compilations s' = compilations s).
  { unfold s', BVM_texture_cache_invalidate.
    destruct (bvm_tex_cache s !! tex_ptr tex); reflexivity. }
  split.
  - unfold BVM_texture_cache_invalidate at 1. rewrite Habs. reflexivity.
  - unfold BVM_texture_cache_acquire. rewrite Habs, Hu, Hn, Hc. cbn.
    split; [reflexivity |]. split; [apply lookup_insert_eq | reflexivity].
Qed.

(** X11. [acquire] and [invalidate] of one texture leave the entry of
    every other key as it is. *)
Theorem cache_other_keys_untouched (tex : Tex) (s : State) (k : TexPtr) :
  k <> tex_ptr tex ->
  bvm_tex_cache (snd (acquire tex s)) !! k = bvm_tex_cache s !! k
  /\ bvm_tex_cache (BVM_texture_cache_invalidate tex s) !! k
     = bvm_tex_cache s !! k.
Proof.
  intros Hk. split.
  - unfold BVM_texture_cache_acquire.
    destruct (bvm_tex_cache s !! tex_ptr tex); [reflexivity |].
    destruct (use_nodes tex), (nodetree tex); cbn; try reflexivity.
    apply lookup_insert_ne. congruence.
  - unfold BVM_texture_cache_invalidate.
    destruct (bvm_tex_cache s !! tex_ptr tex); [| reflexivity].
    cbn. apply lookup_delete_ne. congruence.
Qed.

(** ** Progress of concurrent calls *)

Lemma initial_owner_inside (n : nat) (s : State) :
  owner_inside (initial n s).
Proof. intros i H. discriminate H. Qed.

Lemma step_owner_inside (tex : Tex) (t : nat) (sys sys' : System) :
  owner_inside sys -> step tex t sys = Some sys' -> owner_inside sys'.
Proof.
  intros Hown Hstep. unfold TexCache.step in Hstep.
  destruct (threads sys !! t) as [p |] eqn:Hp; [| discriminate].
  cbn in Hstep.
  destruct (thread_step t tex (shared sys) p) as [[sh' p'] |] eqn:Hts;
    [| discriminate].
  cbn in Hstep. injection Hstep as <-.
  assert (Hlt : t < length (threads sys)) by (eapply lookup_lt_Some, Hp).
  assert (Hkeep : bvm_tex_mutex sh' = bvm_tex_mutex (shared sys) ->
                  in_critical_section p' = true ->
                  owner_inside (mk_System sh' (<[t := p']> (threads sys)))).
  { intros Hm Hc i Hi. cbn in Hi |- *. rewrite Hm in Hi.
    destruct (decide (i = t)) as [-> | Hne].
    - exists p'. split; [apply list_lookup_insert_eq, Hlt | exact Hc].
    - destruct (Hown i Hi) as (q & Hq & Hcq). exists q.
      split; [rewrite list_lookup_insert_ne by congruence; exact Hq |
              exact Hcq]. }
  destruct p; cbn in Hts.
  - destruct (bvm_tex_mutex (shared sys)); [discriminate |].
    injection Hts as <- <-. intros i Hi. cbn in Hi |- *.
    injection Hi as <-. exists PFind.
    split; [apply list_lookup_insert_eq, Hlt | reflexivity].
  - destruct (bvm_tex_cache (sh_state (shared sys)) !! tex_ptr tex);
      [| destruct (use_nodes tex); [destruct (nodetree tex) |]];
      injection Hts as <- <-; apply Hkeep; reflexivity.
  - injection Hts as <- <-. apply Hkeep; reflexivity.
  - injection Hts as <- <-. apply Hkeep; reflexivity.
  - injection Hts as <- <-. intros i Hi. discriminate Hi.
  - discriminate.
Qed.

Lemma run_schedule_owner_inside (tex : Tex) (sched : list nat) :
  forall sys : System,
    owner_inside sys -> owner_inside (run_schedule tex sched sys).
Proof.
  induction sched as [| t sched IH]; intros sys Hown; cbn.
  - exact Hown.
  - apply IH. destruct (step tex t sys) as [sys' |] eqn:Hstep; cbn.
    + eapply step_owner_inside; eassumption.
    + exact Hown.
Qed.

(** A thread inside the function body can always take its next step. *)
Lemma critical_can_step (t : nat) (tex : Tex) (sh : Shared) (p : pc) :
  in_critical_section p = true -> is_Some (thread_step t tex sh p).
Proof.
  destruct p; cbn; try discriminate; intros _; eauto.
  destruct (bvm_tex_cache (sh_state sh) !! tex_ptr tex);
    [| destruct (use_nodes tex); [destruct (nodetree tex) |]]; eauto.
Qed.

Lemma remaining_decreases (t : nat) (tex : Tex) (sh sh' : Shared)
    (p p' : pc) :
  thread_step t tex sh p = Some (sh', p') -> remaining p' < remaining p.
Proof.
  destruct p; cbn.
  - destruct (bvm_tex_mutex sh); [discriminate |]. intros [= <- <-]. cbn. lia.
  - destruct (bvm_tex_cache (sh_state sh) !! tex_ptr tex);
      [| destruct (use_nodes tex); [destruct (nodetree tex) |]];
      intros [= <- <-]; cbn; lia.
  - intros [= <- <-]. cbn. lia.
  - intros [= <- <-]. cbn. lia.
  - intros [= <- <-]. cbn. lia.
  - discriminate.
Qed.

Lemma work_insert (l : list pc) :
  forall (t : nat) (p p' : pc),
    l !! t = Some p -> remaining p' < remaining p ->
    foldr (fun q n => remaining q + n) 0 (<[t := p']> l)
    < foldr (fun q n => remaining q + n) 0 l.
Proof.
  induction l as [| q l IH]; intros t p p' Hp Hlt; [discriminate Hp |].
  destruct t as [| t].
  - injection Hp as ->. change (<[0 := p']> (p :: l)) with (p' :: l).
    cbn [foldr]. lia.
  - change (<[S t := p']> (q :: l)) with (q :: <[t := p']> l).
    change ((q :: l) !! S t) with (l !! t) in Hp.
    cbn [foldr]. specialize (IH t p p' Hp Hlt). lia.
Qed.

Lemma work_initial (n : nat) (s : State) : work (initial n s) = 5 * n.
Proof.
  unfold work, initial. cbn [threads].
  induction n as [| n IH]; cbn in *; lia.
Qed.

(** X12. Concurrent [acquire]s of one texture cannot deadlock: after
    any schedule, either every call has returned or some thread can
    take a step.  Each step uses up one of the at most five steps a call
    has, so every call returns after finitely many of its steps. *)
Theorem concurrent_acquire_progress
    (tex : Tex) (s0 : State) (n : nat) (sched : list nat) :
  let sys := run_schedule tex sched (initial n s0) in
  (Forall (fun p => finished p = true) (threads sys)
   \/ exists t sys', step tex t sys = Some sys')
  /\ (forall t sys', step tex t sys = Some sys' -> work sys' < work sys)
  /\ work sys <= 5 * n.
Proof.
  intros sys.
  pose proof (run_schedule_invariant BVM_gen_texture_expression tex s0 sched
                _ (initial_invariant BVM_gen_texture_expression tex s0 n))
    as Hinv.
  pose proof (run_schedule_owner_inside tex sched _
                (initial_owner_inside n s0)) as Hown.
  fold sys in Hinv, Hown.
  assert (Hdec : forall t sys1 sys2,
             step tex t sys1 = Some sys2 -> work sys2 < work sys1).
  { intros t sys1 sys2 Hstep. unfold TexCache.step in Hstep.
    destruct (threads sys1 !! t) as [p |] eqn:Hp; [| discriminate].
    cbn in Hstep.
    destruct (thread_step t tex (shared sys1) p) as [[sh' p'] |] eqn:Hts;
      [| discriminate].
    cbn in Hstep. injection Hstep as <-. unfold work. cbn [threads].
    eapply work_insert; [exact Hp |]. eapply remaining_decreases, Hts. }
  split; [| split].
  - destruct (bvm_tex_mutex (shared sys)) as [i |] eqn:Hm.
    + right. destruct (Hown i Hm) as (p & Hp & Hc).
      destruct (critical_can_step i tex (shared sys) p Hc) as [[sh' p'] Hts].
      exists i. eexists. unfold TexCache.step. rewrite Hp. cbn.
      rewrite Hts. cbn. reflexivity.
    + destruct (Forall_Exists_dec (fun p => finished p = true)
                  (fun p => finished p <> true)
                  (fun p => bool_dec (finished p) true) (threads sys))
        as [Hall | Hex]; [left; exact Hall | right].
      apply Exists_exists in Hex as (p & Hin & Hnf).
      apply list_elem_of_lookup_1 in Hin as [t Hp].
      assert (Hpl : p = PLock).
      { destruct p; try reflexivity;
          try (pose proof (inv_mutex _ _ _ _ Hinv _ _ Hp eq_refl) as Hc;
               congruence).
        contradiction Hnf. reflexivity. }
      subst p. exists t. eexists. unfold TexCache.step. rewrite Hp. cbn.
      rewrite Hm. cbn. reflexivity.
  - intros t sys' Hstep. exact (Hdec _ _ _ Hstep).
  - clear Hinv Hown. subst sys.
    assert (Hgen : forall sched sys0,
               work (run_schedule tex sched sys0) <= work sys0).
    { clear sched. induction sched as [| t sched IH]; intros sys0; cbn;
        [lia |].
      destruct (step tex t sys0) as [sys' |] eqn:Hstep; cbn.
      - specialize (IH sys'). specialize (Hdec _ _ _ Hstep). lia.
      - apply IH. }
    specialize (Hgen sched (initial n s0)). rewrite work_initial in Hgen.
    exact Hgen.
Qed.

End Facts.

(** A compiler that always fails. *)
Lemma acquire_caches_failure_run :
  let s1 := snd (BVM_texture_cache_acquire (fun _ _ _ => NULL) texA
                   empty_state) in
  fst (BVM_texture_cache_acquire (fun _ _ _ => NULL) texA empty_state) = NULL
  /\ bvm_tex_cache s1 !! tex_ptr texA = Some NULL
  /\ compilations s1 = 1
  /\ BVM_texture_cache_acquire (fun _ _ _ => NULL) texA s1 = (NULL, s1).
Proof.
  apply (acquire_caches_failure (fun _ _ _ => NULL) texA empty_state
           3%positive); reflexivity.
Defined.

(** [acquire], [invalidate], [acquire] of [texA]: the second compilation
    yields expression 2. *)
Lemma invalidate_acquire_recompiles_run :
  let s := snd (BVM_texture_cache_acquire example_gen texA empty_state) in
  let s' := BVM_texture_cache_invalidate texA s in
  BVM_texture_cache_invalidate texA s' = s'
  /\ fst (BVM_texture_cache_acquire example_gen texA s') = Some 2%positive
  /\ bvm_tex_cache (snd (BVM_texture_cache_acquire example_gen texA s'))
       !! tex_ptr texA = Some (Some 2%positive)
  /\ compilations (snd (BVM_texture_cache_acquire example_gen texA s')) = 2.
Proof.
  apply (invalidate_acquire_recompiles example_gen texA
           (snd (BVM_texture_cache_acquire example_gen texA empty_state))
           3%positive); reflexivity.
Defined.

Lemma cache_other_keys_untouched_run :
  bvm_tex_cache (snd (BVM_texture_cache_acquire example_gen texA empty_state))
    !! 9%positive = None
  /\ bvm_tex_cache (BVM_texture_cache_invalidate texA empty_state)
       !! 9%positive = None.
Proof.
  apply (cache_other_keys_untouched example_gen texA empty_state 9%positive).
  discriminate.
Defined.

(** Two threads after three steps of thread 0: thread 1 is blocked, but
    thread 0 can go on. *)
Lemma concurrent_acquire_progress_run :
  let sys := run_schedule example_gen texA [0; 0; 0]
               (initial 2 empty_state) in
  (Forall (fun p => finished p = true) (threads sys)
   \/ exists t sys', step example_gen texA t sys = Some sys')
  /\ step example_gen texA 1 sys = None
  /\ work sys <= 10.
Proof.
  destruct (concurrent_acquire_progress example_gen texA empty_state 2
              [0; 0; 0]) as (Hprog & _ & Hwork).
  split; [exact Hprog |]. split; [reflexivity | exact Hwork].
Defined.

End TexCacheMoreFacts.

(* ===================================================================== *)
(** * Facts about signatures, node values and node functions *)
(* ===================================================================== *)

Module DualCompilerMoreFacts.

Import Nodes LLVMIR DualCompiler DualCompilerMore DualCompilerFacts.

Section Facts.

Variable bvm_type_has_dual_value : TypeSpec -> bool.
Variable bvm_value_function_name : string -> string.
Variable bvm_deriv_function_name : string -> string.
Variable declare_node_function : Module_ -> NodeType -> option string.
Variable bvm_get_llvm_type : TypeSpec -> bool -> option LType.
Variable key_typespec : OutputKey -> TypeSpec.
Variable llvm_has_external_impl_value : OpCode -> bool.
Variable llvm_has_external_impl_deriv : OpCode -> bool.
Variable find_node_type : string -> option NodeType.

Abbreviation use_argument_pointer :=
  (use_argument_pointer bvm_type_has_dual_value).
Abbreviation collect_output := (collect_output bvm_type_has_dual_value).
Abbreviation collect_input := (collect_input bvm_type_has_dual_value).
Abbreviation collect_call_args :=
  (collect_call_args bvm_type_has_dual_value).
Abbreviation has_dual_output := (has_dual_output bvm_type_has_dual_value).
Abbreviation define_dual_function_wrapper :=
  (define_dual_function_wrapper bvm_type_has_dual_value
     bvm_value_function_name bvm_deriv_function_name declare_node_function).
Abbreviation append_input_types :=
  (append_input_types bvm_type_has_dual_value bvm_get_llvm_type).
Abbreviation append_output_types :=
  (append_output_types bvm_type_has_dual_value bvm_get_llvm_type).
Abbreviation append_all_input_types :=
  (append_all_input_types bvm_type_has_dual_value bvm_get_llvm_type).
Abbreviation append_all_output_types :=
  (append_all_output_types bvm_type_has_dual_value bvm_get_llvm_type).
Abbreviation node_parameter_types :=
  (node_parameter_types bvm_type_has_dual_value bvm_get_llvm_type).
Abbreviation elementary_input_types :=
  (elementary_input_types bvm_type_has_dual_value bvm_get_llvm_type).
Abbreviation elementary_output_types :=
  (elementary_output_types bvm_type_has_dual_value bvm_get_llvm_type).
Abbreviation declare_elementary_node_function :=
  (declare_elementary_node_function bvm_type_has_dual_value
     bvm_get_llvm_type).
Abbreviation define_elementary_functions :=
  (define_elementary_functions bvm_type_has_dual_value
     bvm_value_function_name bvm_deriv_function_name bvm_get_llvm_type
     llvm_has_external_impl_value llvm_has_external_impl_deriv).
Abbreviation define_node_function :=
  (define_node_function bvm_type_has_dual_value bvm_value_function_name
     bvm_deriv_function_name declare_node_function bvm_get_llvm_type
     llvm_has_external_impl_value llvm_has_external_impl_deriv
     find_node_type).
Abbreviation alloc_node_value :=
  (alloc_node_value bvm_get_llvm_type key_typespec).
Abbreviation append_input_value :=
  (append_input_value bvm_type_has_dual_value).
Abbreviation append_input_constant :=
  (append_input_constant bvm_type_has_dual_value).
Abbreviation map_argument :=
  (map_argument bvm_type_has_dual_value key_typespec).

(** ** Arities *)

Lemma append_input_types_length (ps ps' : list (option LType))
    (spec : TypeSpec) (is_const : bool) :
  append_input_types ps spec is_const = Some ps' ->
  length ps' = length ps
               + (if negb is_const && bvm_type_has_dual_value spec
                  then 3 else 1).
Proof.
  unfold DualCompilerMore.append_input_types.
  destruct (use_argument_pointer spec false);
    [destruct (bvm_get_llvm_type spec false); [| cbn; discriminate] |];
    cbn; intros [= <-];
    destruct (negb is_const && bvm_type_has_dual_value spec);
    rewrite ?length_app; cbn; lia.
Qed.

Lemma append_output_types_length (ps : list (option LType))
    (spec : TypeSpec) :
  length (append_output_types ps spec)
  = length ps + (if bvm_type_has_dual_value spec then 3 else 1).
Proof.
  unfold DualCompilerMore.append_output_types.
  destruct (bvm_type_has_dual_value spec); rewrite ?length_app; cbn; lia.
Qed.

Lemma collect_outputs_arg_it (outs : list NodeOutput) :
  forall (st : call_args) (ps : list (option LType)),
    arg_it st = length ps ->
    arg_it (fold_left collect_output outs st)
    = length (append_all_output_types ps outs).
Proof.
  induction outs as [| o outs IH]; intros st ps Hst;
    cbn [DualCompilerMore.append_all_output_types fold_left].
  - exact Hst.
  - apply IH. rewrite append_output_types_length.
    unfold DualCompiler.collect_output.
    destruct (bvm_type_has_dual_value (output_typespec o)); cbn; lia.
Qed.

Lemma collect_inputs_arg_it (ins : list NodeInput) :
  forall (st : call_args) (ps ps' : list (option LType)),
    arg_it st = length ps ->
    append_all_input_types ps ins = Some ps' ->
    arg_it (fold_left collect_input ins st) = length ps'.
Proof.
  induction ins as [| i ins IH]; intros st ps ps' Hst;
    cbn [DualCompilerMore.append_all_input_types fold_left].
  - intros [= <-]. exact Hst.
  - destruct (append_input_types ps (input_typespec i)
                (is_constant (value_type i))) as [ps1 |] eqn:H1;
      [| cbn; discriminate].
    cbn [mbind option_bind]. apply IH. rewrite (append_input_types_length _ _ _ _ H1).
    unfold DualCompiler.collect_input.
    destruct (negb (is_constant (value_type i))
              && bvm_type_has_dual_value (input_typespec i)); cbn; lia.
Qed.

(** X13. The wrapper walks exactly as many formal arguments as
    [append_output_types] and [append_input_types] put into the
    parameter list of the node type: the assertion "Did not use all the
    function arguments!" holds for a function declared with that
    list. *)
Theorem wrapper_uses_all_parameters
    (nodetype : NodeType) (params : list (option LType)) :
  node_parameter_types nodetype = Some params ->
  arg_it (collect_call_args nodetype) = length params.
Proof.
  unfold DualCompilerMore.node_parameter_types,
    DualCompiler.collect_call_args.
  intros H. eapply collect_inputs_arg_it; [| exact H].
  apply collect_outputs_arg_it. reflexivity.
Qed.

(** X14. [append_input_value] and [append_output_arguments] always
    append three arguments, whereas [append_input_types] and
    [append_output_types] declare three parameters only for a type with
    a dual value (and a non-constant input), one otherwise: the counts
    agree exactly for the dual-carrying types.  A constant is one
    argument for one parameter. *)
Theorem appended_arguments_match_types
    (c : Lowering) (args : list IRValue) (spec : TypeSpec)
    (key : OutputKey) (ps : list (option LType)) (cst : nat) :
  (forall c' args' ps',
      append_input_value c args spec key = Some (c', args') ->
      append_input_types ps spec false = Some ps' ->
      length args' = length args + 3
      /\ (length args' - length args = length ps' - length ps
          <-> bvm_type_has_dual_value spec = true))
  /\ (forall args',
         append_output_arguments c args key = Some args' ->
         length args' = length args + 3
         /\ (length args' - length args
             = length (append_output_types ps spec) - length ps
             <-> bvm_type_has_dual_value spec = true))
  /\ (forall ps',
         append_input_types ps spec true = Some ps' ->
         length (snd (append_input_constant c args spec cst)) - length args
         = length ps' - length ps).
Proof.
  split; [| split].
  - intros c' args' ps' Hv Ht.
    apply append_input_types_length in Ht. cbn [negb andb] in Ht.
    assert (Hl : length args' = length args + 3).
    { unfold DualCompilerMore.append_input_value in Hv.
      destruct (m_output_values c !! key) as [ptr |];
        [| discriminate Hv].
      cbn [mbind option_bind] in Hv.
      destruct (use_argument_pointer spec false);
        injection Hv as <- <-; rewrite length_app; reflexivity. }
    split; [exact Hl |].
    destruct (bvm_type_has_dual_value spec); split; intros; try lia;
      try reflexivity; try discriminate.
  - intros args' Hv.
    assert (Hl : length args' = length args + 3).
    { unfold append_output_arguments in Hv.
      destruct (m_output_values c !! key) as [val |];
        [| discriminate Hv].
      cbn in Hv. injection Hv as <-. rewrite length_app. reflexivity. }
    split; [exact Hl |]. rewrite append_output_types_length.
    destruct (bvm_type_has_dual_value spec); split; intros; try lia;
      try reflexivity; try discriminate.
  - intros ps' Ht. apply append_input_types_length in Ht.
    cbn [negb andb] in Ht.
    unfold DualCompilerMore.append_input_constant.
    destruct (use_argument_pointer spec false); cbn [snd];
      rewrite length_app; cbn; lia.
Qed.

(** ** Arity of the elementary calls *)

Lemma elementary_output_types_length (wd : bool) (outs : list NodeOutput) :
  forall ots, elementary_output_types wd outs = Some ots ->
              length ots = length outs.
Proof.
  induction outs as [| o outs IH]; intros ots; cbn.
  - intros [= <-]. reflexivity.
  - destruct (bvm_get_llvm_type (output_typespec o) false); [| cbn; discriminate].
    cbn. destruct (elementary_output_types wd outs) as [rest |];
      [| cbn; discriminate].
    cbn. intros [= <-].
    destruct (wd && bvm_type_has_dual_value (output_typespec o)); cbn;
      f_equal; apply IH; reflexivity.
Qed.

(** Number of arguments an input contributes to a derivative call. *)
Lemma elementary_input_types_length (wd : bool) (ins : list NodeInput) :
  forall its,
    elementary_input_types wd ins = Some its ->
    length its
    = length ins
      + (if wd
         then length (filter (fun i =>
                 negb (is_constant (value_type i))
                 && bvm_type_has_dual_value (input_typespec i) = true) ins)
         else 0).
Proof.
  induction ins as [| i ins IH]; intros its;
    cbn [DualCompilerMore.elementary_input_types].
  - intros [= <-]. destruct wd; reflexivity.
  - destruct (bvm_get_llvm_type (input_typespec i) false);
      [| cbn; discriminate].
    cbn [mbind option_bind].
    destruct (elementary_input_types wd ins) as [rest |];
      [| cbn; discriminate].
    cbn [mbind option_bind]. intros [= <-].
    rewrite length_app, (IH rest eq_refl).
    rewrite filter_cons. cbn [length].
    destruct wd; cbn [andb].
    + destruct (negb (is_constant (value_type i))
                && bvm_type_has_dual_value (input_typespec i)) eqn:Hd.
      * rewrite decide_True by first [exact Hd | reflexivity]. cbn [length]. lia.
      * rewrite decide_False by first [discriminate | congruence]. cbn [length]. lia.
    + cbn [length]. lia.
Qed.

Lemma collect_output_lengths (st : call_args) (o : NodeOutput) :
  let d := if bvm_type_has_dual_value (output_typespec o) then 1 else 0 in
  length (call_args_value (collect_output st o))
  = length (call_args_value st) + 1
  /\ length (call_args_dx (collect_output st o))
     = length (call_args_dx st) + d
  /\ length (call_args_dy (collect_output st o))
     = length (call_args_dy st) + d.
Proof.
  unfold DualCompiler.collect_output.
  destruct (bvm_type_has_dual_value (output_typespec o)); cbn;
    rewrite ?length_app; cbn; lia.
Qed.

Lemma collect_input_lengths (st : call_args) (i : NodeInput) :
  let d := if negb (is_constant (value_type i))
              && bvm_type_has_dual_value (input_typespec i)
           then 1 else 0 in
  length (call_args_value (collect_input st i))
  = length (call_args_value st) + 1
  /\ length (call_args_dx (collect_input st i))
     = length (call_args_dx st) + 1 + d
  /\ length (call_args_dy (collect_input st i))
     = length (call_args_dy st) + 1 + d.
Proof.
  unfold DualCompiler.collect_input.
  destruct (negb (is_constant (value_type i))
            && bvm_type_has_dual_value (input_typespec i)); cbn;
    rewrite ?length_app; cbn; lia.
Qed.

Lemma collect_outputs_lengths (outs : list NodeOutput) :
  forall st : call_args,
    length (call_args_value (fold_left collect_output outs st))
    = length (call_args_value st) + length outs
    /\ length (call_args_dx (fold_left collect_output outs st))
       + length (filter (fun o => has_dual_output o = false) outs)
       = length (call_args_dx st) + length outs
    /\ length (call_args_dy (fold_left collect_output outs st))
       + length (filter (fun o => has_dual_output o = false) outs)
       = length (call_args_dy st) + length outs.
Proof.
  induction outs as [| o outs IH]; intros st; cbn [fold_left].
  - rewrite filter_nil. cbn. lia.
  - destruct (IH (collect_output st o)) as (Hv & Hx & Hy).
    destruct (collect_output_lengths st o) as (Hv1 & Hx1 & Hy1).
    rewrite Hv, Hv1. rewrite Hx1 in Hx. rewrite Hy1 in Hy.
    rewrite filter_cons.
    assert (Hd : has_dual_output o = true \/ has_dual_output o = false)
      by (destruct (has_dual_output o); auto).
    destruct Hd as [Hd | Hd].
    + rewrite decide_False by first [discriminate | congruence].
      unfold DualCompiler.has_dual_output in Hd. rewrite Hd in Hx, Hy.
      cbn [length]. lia.
    + rewrite decide_True by first [exact Hd | reflexivity].
      unfold DualCompiler.has_dual_output in Hd. rewrite Hd in Hx, Hy.
      cbn [length]. lia.
Qed.

Lemma collect_inputs_lengths (ins : list NodeInput) :
  forall st : call_args,
    let extra :=
      length (filter (fun i =>
                negb (is_constant (value_type i))
                && bvm_type_has_dual_value (input_typespec i) = true) ins) in
    length (call_args_value (fold_left collect_input ins st))
    = length (call_args_value st) + length ins
    /\ length (call_args_dx (fold_left collect_input ins st))
       = length (call_args_dx st) + length ins + extra
    /\ length (call_args_dy (fold_left collect_input ins st))
       = length (call_args_dy st) + length ins + extra.
Proof.
  induction ins as [| i ins IH]; intros st; cbn [fold_left].
  - rewrite filter_nil. cbn. lia.
  - destruct (IH (collect_input st i)) as (Hv & Hx & Hy).
    destruct (collect_input_lengths st i) as (Hv1 & Hx1 & Hy1).
    cbn zeta in *. rewrite Hv, Hx, Hy, Hv1, Hx1, Hy1.
    rewrite filter_cons.
    destruct (negb (is_constant (value_type i))
              && bvm_type_has_dual_value (input_typespec i)) eqn:Hd.
    + rewrite decide_True by first [exact Hd | reflexivity]. cbn [length]. lia.
    + rewrite decide_False by first [discriminate | congruence]. cbn [length]. lia.
Qed.

(** X15. The value call passes as many arguments as the value function
    was declared with.  The derivative calls pass one argument fewer for
    every output that carries no dual value: the derivative function is
    declared with a parameter for each output, the wrapper passes only
    the dx (dy) pointers of the dual-carrying ones. *)
Theorem elementary_call_arity (nodetype : NodeType) :
  (forall its ots,
      declare_elementary_node_function nodetype false = Some (its, ots) ->
      length (call_args_value (collect_call_args nodetype))
      = length its + length ots)
  /\ (forall its ots,
         declare_elementary_node_function nodetype true = Some (its, ots) ->
         let missing :=
           length (filter (fun o => has_dual_output o = false)
                     (outputs nodetype)) in
         length (call_args_dx (collect_call_args nodetype)) + missing
         = length its + length ots
         /\ length (call_args_dy (collect_call_args nodetype)) + missing
            = length its + length ots).
Proof.
  unfold DualCompilerMore.declare_elementary_node_function,
    DualCompiler.collect_call_args.
  destruct (collect_inputs_lengths (inputs nodetype)
              (fold_left collect_output (outputs nodetype)
                 (mk_call_args 0 [] [] []))) as (Hv & Hx & Hy).
  destruct (collect_outputs_lengths (outputs nodetype)
              (mk_call_args 0 [] [] [])) as (Hv' & Hx' & Hy').
  cbn [call_args_value call_args_dx call_args_dy length] in Hv', Hx', Hy'.
  split.
  - intros its ots H.
    destruct (elementary_input_types false (inputs nodetype)) as [its' |]
      eqn:Hi; [| cbn; discriminate].
    destruct (elementary_output_types false (outputs nodetype)) as [ots' |]
      eqn:Ho; [| cbn; discriminate].
    cbn in H. injection H as <- <-.
    rewrite (elementary_input_types_length _ _ _ Hi),
      (elementary_output_types_length _ _ _ Ho). lia.
  - intros its ots H.
    destruct (elementary_input_types true (inputs nodetype)) as [its' |]
      eqn:Hi; [| cbn; discriminate].
    destruct (elementary_output_types true (outputs nodetype)) as [ots' |]
      eqn:Ho; [| cbn; discriminate].
    cbn in H. injection H as <- <-.
    rewrite (elementary_input_types_length _ _ _ Hi),
      (elementary_output_types_length _ _ _ Ho). cbn zeta. lia.
Qed.

(** ** [define_node_function] *)

(** X16. For an opcode with external value and derivative
    implementations whose argument types all have an LLVM type,
    [define_node_function] declares both elementary functions and builds
    the wrapper that calls them: the value function is found
    ("Could not find node function!" does not fire). *)
Theorem define_node_function_with_implementations
    (mod_ : Module_) (n : nat) (nodetype_name : string)
    (nodetype : NodeType) (func : string)
    (vsig dsig : list LType * list LType) :
  find_node_type nodetype_name = Some nodetype ->
  llvm_has_external_impl_value (OP_OTHER n) = true ->
  llvm_has_external_impl_deriv (OP_OTHER n) = true ->
  declare_elementary_node_function nodetype false = Some vsig ->
  declare_elementary_node_function nodetype true = Some dsig ->
  declare_node_function
    (define_elementary_functions mod_ (OP_OTHER n) nodetype) nodetype
  = Some func ->
  let value_name := bvm_value_function_name (name nodetype) in
  let deriv_name := bvm_deriv_function_name (name nodetype) in
  let result := define_node_function mod_ (OP_OTHER n) nodetype_name in
  value_name ∈ fst result /\ deriv_name ∈ fst result
  /\ (forall nm, nm ∈ mod_ -> nm ∈ fst result)
  /\ snd result
     = Built (mk_Function func [mk_BasicBlock "entry"
         [Call value_name (call_args_value (collect_call_args nodetype));
          Call deriv_name (call_args_dx (collect_call_args nodetype));
          Call deriv_name (call_args_dy (collect_call_args nodetype));
          RetVoid]]).
Proof.
  intros Hfind Hv Hd Hvs Hds Hdecl value_name deriv_name result.
  assert (Hmod : define_elementary_functions mod_ (OP_OTHER n) nodetype
                 = {[ deriv_name ]} ∪ ({[ value_name ]} ∪ mod_)).
  { unfold DualCompilerMore.define_elementary_functions.
    rewrite Hv, Hd, Hvs, Hds. reflexivity. }
  subst result. unfold DualCompilerMore.define_node_function.
  rewrite Hfind. cbn [fst snd]. rewrite Hmod in Hdecl |- *.
  split; [apply elem_of_union_r, elem_of_union_l, elem_of_singleton;
          reflexivity |].
  split; [apply elem_of_union_l, elem_of_singleton; reflexivity |].
  split; [intros nm Hnm; apply elem_of_union_r, elem_of_union_r, Hnm |].
  apply dual_wrapper_with_derivative; [exact Hdecl | |].
  - apply elem_of_union_r, elem_of_union_l, elem_of_singleton. reflexivity.
  - apply elem_of_union_l, elem_of_singleton. reflexivity.
Qed.

(** X17. When the opcode has no external value implementation, or an
    argument type of the node has no LLVM type, no value function is
    declared; unless the module held one already, the node never gets a
    wrapper: [define_node_function] builds nothing, and where
    [declare_node_function] succeeds the wrapper's construction calls a
    null function. *)
Theorem define_node_function_without_value_function
    (mod_ : Module_) (n : nat) (nodetype_name : string)
    (nodetype : NodeType) :
  find_node_type nodetype_name = Some nodetype ->
  llvm_has_external_impl_value (OP_OTHER n) = false
  \/ declare_elementary_node_function nodetype false = None ->
  bvm_value_function_name (name nodetype) ∉ mod_ ->
  bvm_value_function_name (name nodetype)
  <> bvm_deriv_function_name (name nodetype) ->
  let result := define_node_function mod_ (OP_OTHER n) nodetype_name in
  (forall f, snd result <> Built f)
  /\ (forall func,
         declare_node_function (fst result) nodetype = Some func ->
         snd result = Undefined).
Proof.
  intros Hfind Hnov Hnot Hne result.
  assert (Hmod : bvm_value_function_name (name nodetype)
                 ∉ define_elementary_functions mod_ (OP_OTHER n) nodetype).
  { unfold DualCompilerMore.define_elementary_functions.
    assert (H1 : bvm_value_function_name (name nodetype)
                 ∉ (if llvm_has_external_impl_value (OP_OTHER n)
                    then match declare_elementary_node_function nodetype false
                         with
                         | Some _ =>
                             create_function mod_
                               (bvm_value_function_name (name nodetype))
                         | None => mod_
                         end
                    else mod_)).
    { destruct Hnov as [-> | ->]; [exact Hnot |].
      destruct (llvm_has_external_impl_value (OP_OTHER n)); exact Hnot. }
    destruct (llvm_has_external_impl_deriv (OP_OTHER n)); [| exact H1].
    destruct (declare_elementary_node_function nodetype true);
      [| exact H1].
    unfold create_function at 1.
    intros [Hin | Hin]%elem_of_union; [| exact (H1 Hin)].
    apply elem_of_singleton in Hin. exact (Hne Hin). }
  subst result. unfold DualCompilerMore.define_node_function.
  rewrite Hfind. cbn [fst snd].
  unfold DualCompiler.define_dual_function_wrapper.
  rewrite (llvm_find_external_function_None _ _ Hmod).
  split.
  - intros f.
    destruct (declare_node_function
                (define_elementary_functions mod_ (OP_OTHER n) nodetype)
                nodetype); discriminate.
  - intros func ->. reflexivity.
Qed.

(** ** Node values *)

Lemma map_insert_new_lookup (m : gmap OutputKey DualValue)
    (k : OutputKey) (v : DualValue) :
  map_insert_new m k v !! k = Some (default v (m !! k)).
Proof.
  unfold map_insert_new. destruct (m !! k) as [w |] eqn:Hk; cbn.
  - exact Hk.
  - apply lookup_insert_eq.
Qed.


(** X19. [alloc_node_value] and [copy_node_value] never replace a value
    that a key already has (they still emit their allocas), whereas
    [map_argument] always does. *)
Theorem node_value_kept_or_replaced
    (c : Lowering) (output from : OutputKey) (v w : DualValue)
    (arg : IRValue) :
  m_output_values c !! output = Some v ->
  m_output_values c !! from = Some w ->
  m_output_values (alloc_node_value c output) = m_output_values c
  /\ length (block (alloc_node_value c output)) = length (block c) + 3
  /\ copy_node_value c from output = Some c
  /\ m_output_values (map_argument c output arg) !! output
     = Some (if bvm_type_has_dual_value (key_typespec output)
             then mk_DualValue (IStructGEP arg 0) (IStructGEP arg 1)
                               (IStructGEP arg 2)
             else mk_DualValue arg INull INull).
Proof.
  intros Hout Hfrom.
  unfold DualCompilerMore.alloc_node_value, copy_node_value,
    DualCompilerMore.map_argument, map_insert_new.
  rewrite Hout, Hfrom. cbn.
  split; [reflexivity |]. split; [rewrite length_app; reflexivity |].
  split; [destruct c; reflexivity |].
  destruct (bvm_type_has_dual_value (key_typespec output)); cbn;
    apply lookup_insert_eq.
Qed.


End Facts.

(** ** On the example node types *)


(** An [INT] value used as an input: three arguments are appended for
    the one parameter that is declared. *)
Lemma appended_arguments_match_types_run :
  length [ILoaded (IAlloca 0); ILoaded (IAlloca 1); ILoaded (IAlloca 2)]
  = length (@nil IRValue) + 3
  /\ (length [ILoaded (IAlloca 0); ILoaded (IAlloca 1); ILoaded (IAlloca 2)]
      - length (@nil IRValue)
      = length [Some (LNamed 3)] - length (@nil (option LType))
      <-> float_kinds_have_dual TYPE_INT = true).
Proof.
  apply (proj1 (appended_arguments_match_types float_kinds_have_dual
                  example_llvm_type
                  (alloc_node_value example_llvm_type (fun _ => TYPE_INT)
                     empty_lowering (1, 1)%positive)
                  [] TYPE_INT (1, 1)%positive [] 0)
           (mk_Lowering
              (m_output_values
                 (alloc_node_value example_llvm_type (fun _ => TYPE_INT)
                    empty_lowering (1, 1)%positive))
              (block (alloc_node_value example_llvm_type
                        (fun _ => TYPE_INT) empty_lowering (1, 1)%positive)
               ++ [BLoad (IAlloca 0); BLoad (IAlloca 1); BLoad (IAlloca 2)])
              3)
           [ILoaded (IAlloca 0); ILoaded (IAlloca 1); ILoaded (IAlloca 2)]
           [Some (LNamed 3)]); reflexivity.
Defined.

(** The parameter list of [INT_TO_RANDOM] has six entries. *)
Lemma wrapper_uses_all_parameters_run :
  arg_it (collect_call_args float_kinds_have_dual INT_TO_RANDOM) = 6.
Proof.
  apply (wrapper_uses_all_parameters float_kinds_have_dual
           example_llvm_type INT_TO_RANDOM
           (Some (LNamed 3) :: replicate 3 (Some (LNamed 0))
            ++ replicate 2 (Some (LNamed 3)))).
  reflexivity.
Defined.

(** [INT_TO_RANDOM] with a derivative function: the derivative function
    is declared with four parameters, the derivative calls pass three
    arguments. *)
Lemma elementary_call_arity_run :
  length (call_args_dx (collect_call_args float_kinds_have_dual
                          INT_TO_RANDOM)) + 1 = 2 + 2
  /\ length (call_args_dy (collect_call_args float_kinds_have_dual
                             INT_TO_RANDOM)) + 1 = 2 + 2.
Proof.
  apply (proj2 (elementary_call_arity float_kinds_have_dual
                  example_llvm_type INT_TO_RANDOM)
           [LNamed 3; LNamed 3] [LNamed 3; LNamed 0]).
  reflexivity.
Defined.

Lemma define_node_function_with_implementations_run :
  let result :=
    define_node_function float_kinds_have_dual value_name deriv_name
      node_name example_llvm_type (fun _ => true) (fun _ => true)
      example_registry ∅ (OP_OTHER 0) "ADD_FLOAT" in
  "V_ADD_FLOAT" ∈ fst result /\ "D_ADD_FLOAT" ∈ fst result
  /\ (forall nm, nm ∈ (∅ : Module_) -> nm ∈ fst result)
  /\ snd result
     = Built (mk_Function "ADD_FLOAT" [mk_BasicBlock "entry"
         [Call "V_ADD_FLOAT"
            (call_args_value (collect_call_args float_kinds_have_dual
                                ADD_FLOAT));
          Call "D_ADD_FLOAT"
            (call_args_dx (collect_call_args float_kinds_have_dual
                             ADD_FLOAT));
          Call "D_ADD_FLOAT"
            (call_args_dy (collect_call_args float_kinds_have_dual
                             ADD_FLOAT));
          RetVoid]]).
Proof.
  apply (define_node_function_with_implementations float_kinds_have_dual
           value_name deriv_name node_name example_llvm_type
           (fun _ => true) (fun _ => true) example_registry
           ∅ 0 "ADD_FLOAT" ADD_FLOAT "ADD_FLOAT"
           ([LNamed 0; LNamed 0], [LNamed 0])
           ([LNamed 0; LNamed 0; LNamed 0; LNamed 0], [LNamed 0]));
    reflexivity.
Defined.

Lemma define_node_function_without_value_function_run :
  let result :=
    define_node_function float_kinds_have_dual value_name deriv_name
      node_name example_llvm_type (fun _ => false) (fun _ => false)
      example_registry ∅ (OP_OTHER 0) "ADD_FLOAT" in
  (forall f, snd result <> Built f)
  /\ (forall func,
         node_name (fst result) ADD_FLOAT = Some func ->
         snd result = Undefined).
Proof.
  apply (define_node_function_without_value_function float_kinds_have_dual
           value_name deriv_name node_name example_llvm_type
           (fun _ => false) (fun _ => false) example_registry
           ∅ 0 "ADD_FLOAT" ADD_FLOAT).
  - reflexivity.
  - left. reflexivity.
  - apply not_elem_of_empty.
  - discriminate.
Defined.

Lemma node_value_kept_or_replaced_run :
  let c := alloc_node_value example_llvm_type (fun _ => TYPE_FLOAT)
             empty_lowering (1, 1)%positive in
  m_output_values (alloc_node_value example_llvm_type (fun _ => TYPE_FLOAT)
                     c (1, 1)%positive) = m_output_values c
  /\ length (block (alloc_node_value example_llvm_type
                      (fun _ => TYPE_FLOAT) c (1, 1)%positive)) = 3 + 3
  /\ copy_node_value c (1, 1)%positive (1, 1)%positive = Some c
  /\ m_output_values (map_argument float_kinds_have_dual
                        (fun _ => TYPE_FLOAT) c (1, 1)%positive
                        (IArgument 0)) !! (1, 1)%positive
     = Some (mk_DualValue (IStructGEP (IArgument 0) 0)
               (IStructGEP (IArgument 0) 1) (IStructGEP (IArgument 0) 2)).
Proof.
  apply (node_value_kept_or_replaced float_kinds_have_dual example_llvm_type
           (fun _ => TYPE_FLOAT)
           (alloc_node_value example_llvm_type (fun _ => TYPE_FLOAT)
              empty_lowering (1, 1)%positive)
           (1, 1)%positive (1, 1)%positive
           (mk_DualValue (IAlloca 0) (IAlloca 1) (IAlloca 2))
           (mk_DualValue (IAlloca 0) (IAlloca 1) (IAlloca 2))
           (IArgument 0)); reflexivity.
Defined.


End DualCompilerMoreFacts.

(* ===================================================================== *)
(** * Facts about the socket maps of [bNodeCompiler] *)
(* ===================================================================== *)

Module NodeCompilerFacts.

Import NodeCompiler.

(** X21. A Blender link between a mapped output and a mapped input
    becomes one graph link per socket the input was mapped to, each from
    the socket the output was mapped to: after [map_output_socket] on
    the source node and two [map_input_socket] on the target node,
    [add_link] adds exactly the links to those two sockets and to the
    sockets the input was mapped to before. *)
Theorem mapped_link_fans_out
    (comp : bNodeCompiler) (A B : bNode) (i j : Z)
    (so si : bNodeSocket) (s_from s1 s2 : SocketPair) (autoconvert : bool) :
  BLI_findlink (bnode_outputs A) i = Some so ->
  BLI_findlink (bnode_inputs B) j = Some si ->
  let c1 := map_output_socket (set_current_node comp A) i s_from in
  let old := default ∅ (m_input_map comp
                          !! (bnode_ptr B, Some (sock_ptr si))) in
  let blink := mk_bNodeLink (bnode_ptr A) (sock_ptr so)
                            (bnode_ptr B) (sock_ptr si) in
  exists c2 c3 new_calls,
    map_input_socket (set_current_node c1 B) j s1 = Some c2
    /\ map_input_socket c2 j s2 = Some c3
    /\ graph_calls (add_link c3 blink autoconvert)
       = graph_calls c3 ++ new_calls
    /\ (forall call,
           call ∈ new_calls <->
           exists to, to ∈ ({[ s1; s2 ]} ∪ old : gset SocketPair)
                      /\ call = G_add_link s_from to autoconvert)
    /\ length new_calls = size ({[ s1; s2 ]} ∪ old : gset SocketPair).
Proof.
  intros Hso Hsi c1 old blink.
  set (key := (bnode_ptr B, Some (sock_ptr si)) : bSocketPair).
  set (set1 := ({[ s1 ]} ∪ old : gset SocketPair)).
  set (set2 := ({[ s2 ]} ∪ set1 : gset SocketPair)).
  assert (Hset : set2 = ({[ s1; s2 ]} ∪ old : gset SocketPair)).
  { unfold set2, set1. apply set_eq. intros x.
    rewrite !elem_of_union, !elem_of_singleton. tauto. }
  assert (Hout : m_output_map c1 !! (bnode_ptr A, Some (sock_ptr so))
                 = Some s_from).
  { unfold c1, map_output_socket, set_current_node.
    cbn [m_current_bnode m_output_map]. rewrite Hso. cbn [fmap option_fmap
      option_map]. apply lookup_insert_eq. }
  assert (Hin1 : m_input_map c1 = m_input_map comp) by reflexivity.
  pose (c2 := mk_bNodeCompiler B (<[key := set1]> (m_input_map comp))
                (m_output_map c1)
                (graph_calls c1
                 ++ match sock_type si with
                    | SOCK_OTHER => []
                    | _ => [G_set_input_default s1.1 s1.2 (sock_ptr si)]
                    end)).
  pose (c3 := mk_bNodeCompiler B (<[key := set2]> (m_input_map comp))
                (m_output_map c1)
                (graph_calls c2
                 ++ match sock_type si with
                    | SOCK_OTHER => []
                    | _ => [G_set_input_default s2.1 s2.2 (sock_ptr si)]
                    end)).
  assert (H2 : map_input_socket (set_current_node c1 B) j s1 = Some c2).
  { unfold map_input_socket, set_current_node. cbn [m_current_bnode].
    rewrite Hsi. cbn [mbind option_bind m_input_map m_output_map graph_calls].
    unfold c2, set1, old, key. rewrite Hin1.
    destruct (sock_type si); reflexivity. }
  assert (H3 : map_input_socket c2 j s2 = Some c3).
  { unfold map_input_socket. cbn [m_current_bnode c2].
    rewrite Hsi. cbn [mbind option_bind m_input_map m_output_map graph_calls].
    fold key. unfold c2 at 1 2. cbn [m_input_map].
    rewrite lookup_insert_eq. cbn [default].
    rewrite insert_insert_eq. unfold c3, set2.
    destruct (sock_type si); reflexivity. }
  exists c2, c3,
    (map (fun to_pair => G_add_link s_from to_pair autoconvert)
       (elements set2)).
  split; [exact H2 |]. split; [exact H3 |].
  split; [| split].
  - unfold add_link, blink. cbn [fromnode fromsock tonode tosock].
    cbn [c3 m_output_map m_input_map]. rewrite Hout. fold key.
    rewrite lookup_insert_eq. reflexivity.
  - intros call. rewrite <- Hset. split.
    + intros Hc. apply list_elem_of_In, in_map_iff in Hc as (to & <- & Hto).
      exists to. split; [| reflexivity].
      apply elem_of_elements, list_elem_of_In, Hto.
    + intros (to & Hto & ->). apply list_elem_of_In, in_map_iff.
      exists to. split; [reflexivity |].
      apply list_elem_of_In, elem_of_elements, Hto.
  - rewrite <- Hset, length_map. reflexivity.
Qed.

(** X22. A link whose source output or target input was never mapped
    adds nothing to the graph.  In particular an output mapped under an
    index the node has no socket for is recorded under the null socket
    and no link finds it. *)
Theorem unmapped_link_adds_nothing
    (comp : bNodeCompiler) (blink : bNodeLink) (autoconvert : bool)
    (bindex : Z) (socket : SocketPair) :
  (m_output_map comp !! (fromnode blink, Some (fromsock blink)) = None
   \/ m_input_map comp !! (tonode blink, Some (tosock blink)) = None ->
   add_link comp blink autoconvert = comp)
  /\ (BLI_findlink (bnode_outputs (m_current_bnode comp)) bindex = None ->
      m_output_map comp !! (fromnode blink, Some (fromsock blink)) = None ->
      let comp' := map_output_socket comp bindex socket in
      add_link comp' blink autoconvert = comp').
Proof.
  split.
  - intros [H | H]; unfold add_link; rewrite H; [reflexivity |].
    destruct (m_output_map comp !! _); reflexivity.
  - intros Hnull Hout comp'. unfold add_link.
    assert (H : m_output_map comp' !! (fromnode blink, Some (fromsock blink))
                = None).
    { unfold comp', map_output_socket. cbn [m_output_map]. rewrite Hnull.
      cbn [fmap option_fmap option_map].
      rewrite lookup_insert_ne by discriminate. exact Hout. }
    rewrite H. reflexivity.
Qed.

(** Output 0 of node A is mapped, input 0 of node B is mapped to two
    sockets: a link from A to B becomes two graph links. *)
Lemma mapped_link_fans_out_run :
  exists c2 c3 new_calls,
    map_input_socket
      (set_current_node
         (map_output_socket (set_current_node empty_compiler bnode_A) 0%Z
            (1%positive, "color"))
         bnode_B) 0%Z (2%positive, "value") = Some c2
    /\ map_input_socket c2 0%Z (3%positive, "value") = Some c3
    /\ graph_calls
         (add_link c3 (mk_bNodeLink 10%positive 11%positive 20%positive 21%positive) true)
       = graph_calls c3 ++ new_calls
    /\ (forall call,
           call ∈ new_calls <->
           exists to,
             to ∈ ({[ (2%positive, "value"); (3%positive, "value") ]}
                   ∪ ∅ : gset SocketPair)
             /\ call = G_add_link (1%positive, "color") to true)
    /\ length new_calls
       = size ({[ (2%positive, "value"); (3%positive, "value") ]}
               ∪ ∅ : gset SocketPair).
Proof.
  apply (mapped_link_fans_out empty_compiler bnode_A bnode_B 0%Z 0%Z
           (mk_bNodeSocket 11%positive SOCK_RGBA)
           (mk_bNodeSocket 21%positive SOCK_RGBA)
           (1%positive, "color") (2%positive, "value")
           (3%positive, "value") true); reflexivity.
Defined.

(** Output index 3 of node A does not exist. *)
Lemma unmapped_link_adds_nothing_run :
  let comp' := map_output_socket empty_compiler 3%Z (1%positive, "color") in
  add_link comp' (mk_bNodeLink 10%positive 11%positive 20%positive 21%positive) true = comp'.
Proof.
  apply (proj2 (unmapped_link_adds_nothing empty_compiler
                  (mk_bNodeLink 10%positive 11%positive 20%positive 21%positive) true 3%Z
                  (1%positive, "color"))); reflexivity.
Defined.

End NodeCompilerFacts.
